(** * Signal bot (main.py): shallow embedding and verified properties

    The development follows the layout of [main.py]:
    configuration and persistence helpers, the Telegram dispatcher,
    the synthetic-signal hook, indicator computation, [process_signal]
    and the scan pass [check_signals], then the cooperative scheduling
    of passes on the event loop.

    Conventions.
    - Python floats are idealised as rationals extended with NaN
      ([pyfloat]); every comparison with NaN is false, arithmetic on NaN
      gives NaN.  Rounding error of binary floating point is not modelled.
    - Module-level mutable state ([bot_config], [trade_history],
      [bot_status], [open_trades], the two JSON files) is one record
      [world], threaded through a state-and-exception monad [M].
    - Everything the program obtains from outside (clock, exchange,
      Telegram transport, random numbers, completion order of concurrent
      sends) is read from an environment record [env]. *)

From Stdlib Require Import ZArith QArith Qabs List String Ascii Bool Lia.
From Stdlib Require Import Permutation DecimalString Sorted.
Import ListNotations.

Set Warnings "-register-all".
Close Scope Q_scope.
Local Open Scope string_scope.

(* ------------------------------------------------------------------ *)
(** ** Numbers *)

Inductive pyfloat : Type :=
| NaN
| Num (q : Q).

Definition Qlt_bool (x y : Q) : bool := negb (Qle_bool y x).

Module Float.

Definition lift2 (f : Q -> Q -> Q) (a b : pyfloat) : pyfloat :=
  match a, b with
  | Num x, Num y => Num (f x y)
  | _, _ => NaN
  end.

Definition add := lift2 Qplus.
Definition sub := lift2 Qminus.
Definition mul := lift2 Qmult.

(** [a < b] and [a > b] on floats: false as soon as one side is NaN. *)
Definition lt (a b : pyfloat) : bool :=
  match a, b with
  | Num x, Num y => Qlt_bool x y
  | _, _ => false
  end.

Definition gt (a b : pyfloat) : bool := lt b a.

(** Equality of values (not of representations). *)
Definition eqv (a b : pyfloat) : Prop :=
  match a, b with
  | Num x, Num y => (x == y)%Q
  | NaN, NaN => True
  | _, _ => False
  end.

End Float.

Declare Scope pyfloat_scope.
Delimit Scope pyfloat_scope with F.
Infix "+" := Float.add : pyfloat_scope.
Infix "-" := Float.sub : pyfloat_scope.
Infix "*" := Float.mul : pyfloat_scope.
Infix "<?" := Float.lt : pyfloat_scope.
Infix ">?" := Float.gt (at level 70) : pyfloat_scope.

Definition ofZ (z : Z) : pyfloat := Num (inject_Z z).

(* ------------------------------------------------------------------ *)
(** ** String formatting used by the program *)

Definition string_of_N (n : N) : string :=
  NilZero.string_of_uint (N.to_uint n).

(** Zero padding of [%02d]-like fields. *)
Fixpoint zeros (k : nat) : string :=
  match k with
  | O => ""
  | S k' => String "0" (zeros k')
  end.

Definition pad_left (width : nat) (s : string) : string :=
  zeros (width - String.length s) ++ s.

(** Thousands separators: [digits_rev] is the integer part, least
    significant digit first; [k] digits were emitted since the last comma. *)
Fixpoint commas_rev (digits_rev : list ascii) (k : nat) : list ascii :=
  match digits_rev with
  | [] => []
  | d :: rest =>
      if Nat.eqb k 3 then ","%char :: d :: commas_rev rest 1
      else d :: commas_rev rest (S k)
  end.

Definition group_thousands (s : string) : string :=
  string_of_list_ascii
    (rev (commas_rev (rev (list_ascii_of_string s)) 0)).

(** Nearest integer to [n / d] for [n >= 0], ties to even. *)
Definition round_half_even (n : Z) (d : positive) : Z :=
  let q := (n / Zpos d)%Z in
  let r := (n mod Zpos d)%Z in
  match (2 * r ?= Zpos d)%Z with
  | Lt => q
  | Gt => (q + 1)%Z
  | Eq => if Z.even q then q else (q + 1)%Z
  end.

(** [f"{x:,.2f}"] *)
Definition format_2f (x : pyfloat) : string :=
  match x with
  | NaN => "nan"
  | Num q =>
      let a := Qabs q in
      let cents := round_half_even (Qnum a * 100) (Qden a) in
      let sign := if Qlt_bool q 0%Q then "-" else "" in
      sign
        ++ group_thousands (string_of_N (Z.to_N (cents / 100)))
        ++ "."
        ++ pad_left 2 (string_of_N (Z.to_N (cents mod 100)))
  end.

Definition upper_ascii (a : ascii) : ascii :=
  let n := nat_of_ascii a in
  if (Nat.leb 97 n && Nat.leb n 122)%bool then ascii_of_nat (n - 32) else a.

(** [str.upper()] on ASCII text. *)
Fixpoint upper (s : string) : string :=
  match s with
  | EmptyString => EmptyString
  | String a rest => String (upper_ascii a) (upper rest)
  end.

Record datetime : Type := {
  year : N; month : N; day : N; hour : N; minute : N; second : N
}.

(** [strftime("%Y-%m-%d %H:%M")] *)
Definition strftime_minutes (d : datetime) : string :=
  pad_left 4 (string_of_N (year d)) ++ "-" ++ pad_left 2 (string_of_N (month d))
    ++ "-" ++ pad_left 2 (string_of_N (day d))
    ++ " " ++ pad_left 2 (string_of_N (hour d))
    ++ ":" ++ pad_left 2 (string_of_N (minute d)).

(** [strftime("%Y-%m-%d %H:%M:%S")] *)
Definition strftime_seconds (d : datetime) : string :=
  strftime_minutes d ++ ":" ++ pad_left 2 (string_of_N (second d)).

(* ------------------------------------------------------------------ *)
(** ** JSON values, configuration, global state *)

(** What [json.dump] can be handed by this program. *)
Inductive json : Type :=
| JString (s : string)
| JArray (items : list json)
| JObject (fields : list (string * json)).

(** A Python dict with string keys and string values, in insertion order. *)
Definition dict : Type := list (string * string).

Definition json_of_dict (d : dict) : json :=
  JObject (map (fun kv => (fst kv, JString (snd kv))) d).

(** [list(d)] on a dict: its keys, in insertion order. *)
Definition list_of_dict (d : dict) : list json :=
  map (fun kv => JString (fst kv)) d.

Fixpoint dict_get (k : string) (d : dict) : option string :=
  match d with
  | [] => None
  | (k', v) :: rest => if String.eqb k k' then Some v else dict_get k rest
  end.

Record channel : Type := {
  ch_id : Z; ch_name : string; ch_active : bool
}.

Record account : Type := {
  acc_id : Z; acc_token : string; acc_chat_id : string; acc_name : string
}.

Record config : Type := {
  active_symbols : list string;
  entry_timeframe : string;
  higher_timeframes : list string;
  max_open_trades : Z;
  rsi_period : nat;
  rsi_oversold : Q;
  rsi_overbought : Q;
  volume_avg_period : nat;
  volume_factor : Q;
  ema_short_period : nat;
  ema_long_period : nat;
  ema_entry_period : nat;
  atr_period : nat;
  atr_stop_loss_factor : Q;
  atr_take_profit_factor : Q;
  telegram_channels : list channel
}.

Definition CONFIG_FILE : string := "config.json".
Definition HISTORY_FILE : string := "trade_history.json".

(** [DEFAULT_CONFIG]; the channel list is built from the accounts found in
    the process environment, only the first one active. *)
Definition default_channels (accounts : list account) : list channel :=
  match accounts with
  | [] => []
  | a :: rest =>
      {| ch_id := acc_id a; ch_name := acc_name a; ch_active := true |}
        :: map (fun b => {| ch_id := acc_id b; ch_name := acc_name b;
                            ch_active := false |}) rest
  end.

Definition DEFAULT_CONFIG (accounts : list account) : config := {|
  active_symbols := ["BTC/USDT"; "ETH/USDT"];
  entry_timeframe := "5m";
  higher_timeframes := ["30m"; "1h"; "4h"];
  max_open_trades := 2;
  rsi_period := 14; rsi_oversold := 30; rsi_overbought := 70;
  volume_avg_period := 20; volume_factor := 3 # 2;
  ema_short_period := 50; ema_long_period := 200; ema_entry_period := 20;
  atr_period := 14;
  atr_stop_loss_factor := 1;
  atr_take_profit_factor := 2;
  telegram_channels := default_channels accounts
|}.

Record status : Type := {
  st_status : string;
  last_check : string;
  binance_connection : string;
  last_error : string;
  market_type : string
}.

Definition initial_status : status := {|
  st_status := "Working"; last_check := "Never";
  binance_connection := "Connecting..."; last_error := "None";
  market_type := "Futures"
|}.

(** One call of the Telegram API as seen from outside. *)
Record delivery : Type := {
  dl_token : string; dl_chat_id : string; dl_text : string; dl_ok : bool
}.

Record world : Type := {
  telegram_accounts : list account;
  bot_config : config;
  trade_history : list json;          (* deque(maxlen=50), leftmost first *)
  bot_status : status;
  open_trades : Z;
  files : string -> option json;      (* content of the JSON files *)
  default_type : string;              (* binance.options['defaultType'] *)
  outbox : list delivery              (* Telegram calls made, oldest first *)
}.

Definition set_last_check (s : string) (w : world) : world :=
  {| telegram_accounts := telegram_accounts w; bot_config := bot_config w;
     trade_history := trade_history w;
     bot_status := {| st_status := st_status (bot_status w);
                      last_check := s;
                      binance_connection := binance_connection (bot_status w);
                      last_error := last_error (bot_status w);
                      market_type := market_type (bot_status w) |};
     open_trades := open_trades w; files := files w;
     default_type := default_type w; outbox := outbox w |}.

Definition set_last_error (s : string) (w : world) : world :=
  {| telegram_accounts := telegram_accounts w; bot_config := bot_config w;
     trade_history := trade_history w;
     bot_status := {| st_status := st_status (bot_status w);
                      last_check := last_check (bot_status w);
                      binance_connection := binance_connection (bot_status w);
                      last_error := s;
                      market_type := market_type (bot_status w) |};
     open_trades := open_trades w; files := files w;
     default_type := default_type w; outbox := outbox w |}.

Definition set_binance_connection (s : string) (w : world) : world :=
  {| telegram_accounts := telegram_accounts w; bot_config := bot_config w;
     trade_history := trade_history w;
     bot_status := {| st_status := st_status (bot_status w);
                      last_check := last_check (bot_status w);
                      binance_connection := s;
                      last_error := last_error (bot_status w);
                      market_type := market_type (bot_status w) |};
     open_trades := open_trades w; files := files w;
     default_type := default_type w; outbox := outbox w |}.

Definition set_trade_history (h : list json) (w : world) : world :=
  {| telegram_accounts := telegram_accounts w; bot_config := bot_config w;
     trade_history := h; bot_status := bot_status w;
     open_trades := open_trades w; files := files w;
     default_type := default_type w; outbox := outbox w |}.

Definition set_open_trades (n : Z) (w : world) : world :=
  {| telegram_accounts := telegram_accounts w; bot_config := bot_config w;
     trade_history := trade_history w; bot_status := bot_status w;
     open_trades := n; files := files w;
     default_type := default_type w; outbox := outbox w |}.

Definition set_files (f : string -> option json) (w : world) : world :=
  {| telegram_accounts := telegram_accounts w; bot_config := bot_config w;
     trade_history := trade_history w; bot_status := bot_status w;
     open_trades := open_trades w; files := f;
     default_type := default_type w; outbox := outbox w |}.

Definition set_default_type (s : string) (w : world) : world :=
  {| telegram_accounts := telegram_accounts w; bot_config := bot_config w;
     trade_history := trade_history w; bot_status := bot_status w;
     open_trades := open_trades w; files := files w;
     default_type := s; outbox := outbox w |}.

Definition push_outbox (d : delivery) (w : world) : world :=
  {| telegram_accounts := telegram_accounts w; bot_config := bot_config w;
     trade_history := trade_history w; bot_status := bot_status w;
     open_trades := open_trades w; files := files w;
     default_type := default_type w; outbox := outbox w ++ [d] |}.

(* ------------------------------------------------------------------ *)
(** ** Effects: state and exceptions *)

Inductive outcome (A : Type) : Type :=
| Returned (a : A)
| Raised (e : string).

Arguments Returned {A} a.
Arguments Raised {A} e.

(** A computation may change the globals and then return or raise; the
    changes made before a raise stay. *)
Definition M (A : Type) : Type := world -> outcome A * world.

Definition ret {A} (a : A) : M A := fun w => (Returned a, w).

Definition raise {A} (e : string) : M A := fun w => (Raised e, w).

Definition bind {A B} (m : M A) (k : A -> M B) : M B :=
  fun w =>
    match m w with
    | (Returned a, w') => k a w'
    | (Raised e, w') => (Raised e, w')
    end.

(** [try: m  except Exception as e: h e] *)
Definition try_except {A} (m : M A) (h : string -> M A) : M A :=
  fun w =>
    match m w with
    | (Returned a, w') => (Returned a, w')
    | (Raised e, w') => h e w'
    end.

Definition get {A} (proj : world -> A) : M A := fun w => (Returned (proj w), w).

Definition modify (f : world -> world) : M unit := fun w => (Returned tt, f w).

(** An outcome decided outside the program (a fetch, say). *)
Definition lift_outcome {A} (o : outcome A) : M A := fun w => (o, w).

Notation "x <- m ;; k" := (bind m (fun x => k))
  (at level 61, m at next level, right associativity).
Notation "m ;; k" := (bind m (fun _ => k))
  (at level 61, right associativity).

Definition exec {A} (m : M A) (w : world) : world := snd (m w).
Definition result {A} (m : M A) (w : world) : outcome A := fst (m w).

(* ------------------------------------------------------------------ *)
(** ** The outside world *)

Record candle : Type := {
  col_t : Z; col_o : Q; col_h : Q; col_l : Q; col_c : Q; col_v : Q
}.

(** A coroutine built by [send_telegram_message] and handed to [gather]. *)
Record send_task : Type := {
  task_token : string; task_chat_id : string; task_message : string
}.

Record env : Type := {
  (** [datetime.now()] *)
  now : datetime;
  (** [binance.fetch_ohlcv(symbol, timeframe, limit=l)]: rows, oldest
      first, or the exception raised. *)
  fetch_ohlcv : string -> string -> nat -> outcome (list candle);
  (** [binance.fetch_ticker(symbol)['last']] or the exception raised. *)
  fetch_ticker : string -> outcome Q;
  (** [telegram.Bot(token).send_message(chat_id, text)]: [None] when the
      call succeeds, the exception text otherwise. *)
  bot_send_message : string -> string -> string -> option string;
  (** [random.uniform(60000, 70000)] *)
  random_uniform : Q;
  (** The order in which concurrently running sends finish. *)
  completion_order : list send_task -> list send_task
}.

(* ------------------------------------------------------------------ *)
(** ** Persistence helpers and the bounded history *)

(** [save_json(file_path, data)] for a file that can be written.  A write
    that fails ([open] raising [OSError]) is not part of the model: in
    [process_signal] it would come after the counter and the history are
    updated and before the message is sent. *)
Definition save_json (file_path : string) (data : json) : M unit :=
  modify (fun w =>
    set_files (fun p => if String.eqb p file_path then Some data
                        else files w p) w).

Definition maxlen : nat := 50.


(** [deque(items, maxlen=50)]: when there are more, the rightmost stay. *)
Definition deque (items : list json) : list json :=
  skipn (List.length items - maxlen) items.

(** [d.appendleft(x)] on a bounded deque: a full deque first drops its
    rightmost item. *)
Definition appendleft (x : json) (d : list json) : list json :=
  if Nat.leb maxlen (List.length d) then x :: removelast d else x :: d.

(** State after the module body has run: [loaded_config] and
    [loaded_history] are what [load_json] returned. *)
Definition initial_world (accounts : list account) (loaded_config : config)
    (loaded_history : list json) (disk : string -> option json) : world := {|
  telegram_accounts := accounts;
  bot_config := loaded_config;
  trade_history := deque loaded_history;
  bot_status := initial_status;
  open_trades := 0;
  files := disk;
  default_type := "future";
  outbox := []
|}.

(* ------------------------------------------------------------------ *)
(** ** Telegram dispatch *)

Definition bot_send (e : env) (token chat_id message : string) : M unit :=
  fun w =>
    match bot_send_message e token chat_id message with
    | None =>
        (Returned tt,
         push_outbox {| dl_token := token; dl_chat_id := chat_id;
                        dl_text := message; dl_ok := true |} w)
    | Some err =>
        (Raised err,
         push_outbox {| dl_token := token; dl_chat_id := chat_id;
                        dl_text := message; dl_ok := false |} w)
    end.

Definition send_single_telegram_message (e : env)
    (token chat_id message : string) : M unit :=
  try_except
    (bot_send e token chat_id message)
    (fun err =>
       modify (set_last_error ("Failed to send to " ++ chat_id ++ ": " ++ err))).

(** [asyncio.gather] with [return_exceptions=True]: every task runs to
    its end; an exception becomes that task's result. *)
Fixpoint gather_return_exceptions {A} (tasks : list (M A))
  : M (list (outcome A)) :=
  match tasks with
  | [] => ret []
  | m :: rest =>
      fun w =>
        let (r, w1) := m w in
        match gather_return_exceptions rest w1 with
        | (Returned rs, w2) => (Returned (r :: rs), w2)
        | (Raised x, w2) => (Raised x, w2)
        end
  end.

(** The tasks built by the two nested loops: one per active channel that
    has an account with the same id (the first such account). *)
Definition build_tasks (accounts : list account) (message : string)
    (active_channels_config : list channel) : list send_task :=
  flat_map
    (fun ch =>
       match find (fun a => Z.eqb (acc_id a) (ch_id ch)) accounts with
       | Some a => [ {| task_token := acc_token a;
                        task_chat_id := acc_chat_id a;
                        task_message := message |} ]
       | None => []
       end)
    active_channels_config.

Definition run_task (e : env) (t : send_task) : M unit :=
  send_single_telegram_message e (task_token t) (task_chat_id t)
    (task_message t).

Definition send_telegram_message (e : env) (message : string) : M unit :=
  cfg <- get bot_config ;;
  let active_channels_config := filter ch_active (telegram_channels cfg) in
  match active_channels_config with
  | [] => ret tt
  | _ =>
      accounts <- get telegram_accounts ;;
      let tasks := build_tasks accounts message active_channels_config in
      gather_return_exceptions (map (run_task e) (completion_order e tasks)) ;;
      ret tt
  end.

(* ------------------------------------------------------------------ *)
(** ** Recording a signal *)

Definition bytes (codes : list nat) : string :=
  string_of_list_ascii (map ascii_of_nat codes).

Definition nl : string := bytes [10].
Definition siren : string := bytes [195; 176; 197; 184; 197; 161; 194; 168].
Definition test_tube : string := bytes [195; 176; 197; 184; 194; 167; 194; 170].

(** Stop-loss and take-profit of [process_signal], in this order. *)
Definition signal_prices (cfg : config) (signal_type : string)
    (entry_price atr : pyfloat) : pyfloat * pyfloat :=
  let sl_factor := Num (atr_stop_loss_factor cfg) in
  let tp_factor := Num (atr_take_profit_factor cfg) in
  if String.eqb signal_type "Long"
  then ((entry_price - (atr * sl_factor))%F, (entry_price + (atr * tp_factor))%F)
  else ((entry_price + (atr * sl_factor))%F, (entry_price - (atr * sl_factor))%F).

Definition make_trade_entry (time asset type : string)
    (entry_price sl_price : pyfloat) : dict :=
  [ ("time", time); ("asset", asset); ("type", type);
    ("entry_price", format_2f entry_price); ("sl_price", format_2f sl_price) ].

Definition signal_message (symbol signal_type : string)
    (entry_price sl_price tp_price : pyfloat) : string :=
  siren ++ " <b>" ++ upper signal_type ++ " " ++ symbol ++ "</b>" ++ nl ++ nl
    ++ "<b>Entry:</b> $" ++ format_2f entry_price ++ nl
    ++ "<b>Stop Loss:</b> $" ++ format_2f sl_price ++ nl
    ++ "<b>Take Profit:</b> $" ++ format_2f tp_price.

Definition process_signal (e : env) (symbol signal_type : string)
    (entry_price atr : pyfloat) : M unit :=
  modify (fun w => set_open_trades (open_trades w + 1) w) ;;
  cfg <- get bot_config ;;
  let (sl_price, tp_price) := signal_prices cfg signal_type entry_price atr in
  let trade_entry :=
    make_trade_entry (strftime_minutes (now e)) symbol signal_type
      entry_price sl_price in
  modify (fun w =>
    set_trade_history
      (appendleft (json_of_dict trade_entry) (trade_history w)) w) ;;
  save_json HISTORY_FILE (JArray (list_of_dict trade_entry)) ;;
  send_telegram_message e
    (signal_message symbol signal_type entry_price sl_price tp_price).

(** The [/api/fake_signal] handler. *)
Definition fake_signal (e : env) : M string :=
  pa <- try_except
          (p <- lift_outcome (fetch_ticker e "BTC/USDT") ;;
           ret (Num p, (Num p * Num (1 # 100))%F))
          (fun _ =>
             let p := Num (random_uniform e) in
             ret (p, (p * Num (1 # 100))%F)) ;;
  let (price, atr) := (pa : pyfloat * pyfloat) in
  cfg <- get bot_config ;;
  let sl := (price - (atr * Num (atr_stop_loss_factor cfg)))%F in
  let entry :=
    make_trade_entry (strftime_minutes (now e)) "BTC/USDT" "Long" price sl in
  modify (fun w =>
    set_trade_history (appendleft (json_of_dict entry) (trade_history w)) w) ;;
  h <- get trade_history ;;
  save_json HISTORY_FILE (JArray h) ;;
  send_telegram_message e
    (test_tube ++ " FAKE SIGNAL: See history for details.") ;;
  ret "fake_signal_generated".

(* ------------------------------------------------------------------ *)
(** ** Indicator library *)

(** Modelled from the spec: the indicator functions [talib.EMA],
    [talib.RSI], [talib.ATR] and pandas' [rolling(n).mean()] are library
    code outside [main.py].  They follow section 4.1: EMA with multiplier
    2/(period+1) seeded by the simple average of the first [period]
    closes; RSI and ATR with Wilder's smoothing; a simple rolling mean.
    Entries before an indicator's own warm-up are NaN.  A period of 0
    is taken to raise, and so is a period of 1 for RSI, below the
    minimum the library documents for it.  The statements that depend on
    the periods assume [valid_periods], which keeps clear of these
    cases. *)
Module Talib.

Local Open Scope list_scope.

Definition Qsum (xs : list Q) : Q := fold_right Qplus 0%Q xs.

Definition Qofnat (n : nat) : Q := inject_Z (Z.of_nat n).

Definition Qmean (xs : list Q) : Q := (Qsum xs / Qofnat (List.length xs))%Q.

Definition Qmax (x y : Q) : Q := if Qle_bool x y then y else x.

Definition nans (n : nat) : list pyfloat := repeat NaN n.

(** Wilder's smoothing: [(prev * (n - 1) + x) / n]. *)
Definition wilder (n : nat) (prev x : Q) : Q :=
  ((prev * (Qofnat n - 1) + x) / Qofnat n)%Q.

Fixpoint ema_run (k prev : Q) (xs : list Q) : list Q :=
  match xs with
  | [] => []
  | x :: rest =>
      let cur := ((x - prev) * k + prev)%Q in
      cur :: ema_run k cur rest
  end.

Definition EMA (real : list Q) (timeperiod : nat) : outcome (list pyfloat) :=
  if Nat.ltb timeperiod 1 then Raised "Bad Parameter (TA_BAD_PARAM)"
  else if Nat.ltb (List.length real) timeperiod
  then Returned (nans (List.length real))
  else
    let seed := Qmean (firstn timeperiod real) in
    let k := (2 / (Qofnat timeperiod + 1))%Q in
    Returned (nans (timeperiod - 1)
                ++ map Num (seed :: ema_run k seed (skipn timeperiod real))).

Fixpoint diffs (prev : Q) (xs : list Q) : list Q :=
  match xs with
  | [] => []
  | x :: rest => (x - prev)%Q :: diffs x rest
  end.

Definition gain (d : Q) : Q := if Qlt_bool 0%Q d then d else 0%Q.
Definition loss (d : Q) : Q := if Qlt_bool d 0%Q then (- d)%Q else 0%Q.

Definition rsi_value (g l : Q) : Q :=
  if Qeq_bool (g + l)%Q 0%Q then 0%Q else (100 * (g / (g + l)))%Q.

Fixpoint rsi_run (n : nat) (g l : Q) (ds : list Q) : list Q :=
  match ds with
  | [] => []
  | d :: rest =>
      let g' := wilder n g (gain d) in
      let l' := wilder n l (loss d) in
      rsi_value g' l' :: rsi_run n g' l' rest
  end.

Definition RSI (real : list Q) (timeperiod : nat) : outcome (list pyfloat) :=
  if Nat.ltb timeperiod 2 then Raised "Bad Parameter (TA_BAD_PARAM)"
  else
    match real with
    | [] => Returned []
    | x0 :: rest =>
        if Nat.ltb (List.length rest) timeperiod
        then Returned (nans (List.length real))
        else
          let ds := diffs x0 rest in
          let g := Qmean (map gain (firstn timeperiod ds)) in
          let l := Qmean (map loss (firstn timeperiod ds)) in
          Returned (nans timeperiod
                      ++ map Num (rsi_value g l
                                    :: rsi_run timeperiod g l
                                         (skipn timeperiod ds)))
    end.

Definition true_range (high low prev_close : Q) : Q :=
  Qmax (high - low)%Q
       (Qmax (Qabs (high - prev_close)) (Qabs (low - prev_close))).

(** True ranges from the second bar on. *)
Fixpoint true_ranges (prev_close : Q) (bars : list (Q * Q * Q)) : list Q :=
  match bars with
  | [] => []
  | (hi, lo, cl) :: rest =>
      true_range hi lo prev_close :: true_ranges cl rest
  end.

Fixpoint wilder_run (n : nat) (prev : Q) (xs : list Q) : list Q :=
  match xs with
  | [] => []
  | x :: rest =>
      let cur := wilder n prev x in
      cur :: wilder_run n cur rest
  end.

Definition ATR (high low close : list Q) (timeperiod : nat)
  : outcome (list pyfloat) :=
  if Nat.ltb timeperiod 1 then Raised "Bad Parameter (TA_BAD_PARAM)"
  else
    match combine (combine high low) close with
    | [] => Returned []
    | (_, _, c0) :: rest =>
        if Nat.ltb (List.length rest) timeperiod
        then Returned (nans (List.length close))
        else
          let trs := true_ranges c0 rest in
          let seed := Qmean (firstn timeperiod trs) in
          Returned (nans timeperiod
                      ++ map Num (seed :: wilder_run timeperiod seed
                                            (skipn timeperiod trs)))
    end.

(** [series.rolling(window).mean()] *)
Definition rolling_mean (xs : list Q) (window : nat) : list pyfloat :=
  map (fun i =>
         if (Nat.eqb window 0 || Nat.ltb (S i) window)%bool then NaN
         else Num (Qmean (firstn window (skipn (S i - window) xs))))
      (seq 0 (List.length xs)).

End Talib.

(** A row of the data frame after [calculate_indicators]. *)
Record row : Type := {
  bar : candle;
  ema_s : pyfloat;
  ema_l : pyfloat;
  ema_e : pyfloat;
  rsi : pyfloat;
  atr : pyfloat;
  vol_avg : pyfloat
}.

Definition at_index (col : list pyfloat) (i : nat) : pyfloat := nth i col NaN.

Definition bind_outcome {A B} (o : outcome A) (k : A -> outcome B) : outcome B :=
  match o with
  | Returned a => k a
  | Raised e => Raised e
  end.

Definition calculate_indicators (df : list candle) (cfg : config)
  : outcome (list row) :=
  let closes := map col_c df in
  bind_outcome (Talib.EMA closes (ema_short_period cfg)) (fun c_ema_s =>
  bind_outcome (Talib.EMA closes (ema_long_period cfg)) (fun c_ema_l =>
  bind_outcome (Talib.EMA closes (ema_entry_period cfg)) (fun c_ema_e =>
  bind_outcome (Talib.RSI closes (rsi_period cfg)) (fun c_rsi =>
  bind_outcome (Talib.ATR (map col_h df) (map col_l df) closes (atr_period cfg))
    (fun c_atr =>
  let c_vol_avg := Talib.rolling_mean (map col_v df) (volume_avg_period cfg) in
  Returned
    (map (fun ib =>
            {| bar := snd ib;
               ema_s := at_index c_ema_s (fst ib);
               ema_l := at_index c_ema_l (fst ib);
               ema_e := at_index c_ema_e (fst ib);
               rsi := at_index c_rsi (fst ib);
               atr := at_index c_atr (fst ib);
               vol_avg := at_index c_vol_avg (fst ib) |})
         (combine (seq 0 (List.length df)) df))))))).

(* ------------------------------------------------------------------ *)
(** ** The scan pass *)

(** [get_market_data(s, t)] with its default [l=201]. *)
Definition get_market_data (e : env) (s t : string) : M (list candle) :=
  lift_outcome (fetch_ohlcv e s t 201).

(** [asyncio.gather] without [return_exceptions]: the results in order,
    or the exception of a task that raised. *)
Fixpoint gather {A} (tasks : list (M A)) : M (list A) :=
  match tasks with
  | [] => ret []
  | m :: rest =>
      a <- m ;;
      others <- gather rest ;;
      ret (a :: others)
  end.

(** A row whose indicators are all undefined. *)
Definition nan_row (b : candle) : row :=
  {| bar := b; ema_s := NaN; ema_l := NaN; ema_e := NaN;
     rsi := NaN; atr := NaN; vol_avg := NaN |}.

(** [df.iloc[-1]]; [d] is never reached on a non-empty frame. *)
Definition iloc_last (df : list row) (d : row) : row := last df d.

(** The loop over [htf_data] of [check_signals], started with the counters
    [long_align] and [short_align]. *)
Fixpoint htf_alignment (cfg : config) (htf_data : list (list candle))
    (long_align short_align : Z) : outcome (Z * Z) :=
  match htf_data with
  | [] => Returned (long_align, short_align)
  | df_htf :: rest =>
      match df_htf with
      | [] => htf_alignment cfg rest long_align short_align
      | first :: _ =>
          bind_outcome (calculate_indicators df_htf cfg) (fun frame =>
            let latest := iloc_last frame (nan_row first) in
            let long_align' :=
              if (ema_s latest >? ema_l latest)%F
              then (long_align + 1)%Z else long_align in
            let short_align' :=
              if (ema_s latest <? ema_l latest)%F
              then (short_align + 1)%Z else short_align in
            htf_alignment cfg rest long_align' short_align')
      end
  end.

(** [last, prev = df_5m.iloc[-1], df_5m.iloc[-2]] *)
Definition last_and_prev (df_5m : list row) : outcome (row * row) :=
  match rev df_5m with
  | l :: p :: _ => Returned (l, p)
  | _ => Raised "single positional indexer is out-of-bounds"
  end.

(** The condition of the first [if] of the entry rules. *)
Definition long_entry (cfg : config) (long_align : Z) (prev last : row) : bool :=
  (Z.leb 2 long_align
   && ((rsi prev <? Num (rsi_oversold cfg))%F
       && (rsi last >? Num (rsi_oversold cfg))%F
       && (Num (col_v (bar last)) >? Num (volume_factor cfg) * vol_avg last)%F
       && (Num (col_c (bar last)) >? ema_e last)%F))%bool.

(** The condition of the second [if]. *)
Definition short_entry (cfg : config) (short_align : Z) (prev last : row) : bool :=
  (Z.leb 2 short_align
   && ((rsi prev >? Num (rsi_overbought cfg))%F
       && (rsi last <? Num (rsi_overbought cfg))%F
       && (Num (col_v (bar last)) >? Num (volume_factor cfg) * vol_avg last)%F
       && (Num (col_c (bar last)) <? ema_e last)%F))%bool.

(** How the body of the loop over symbols ends. *)
Inductive flow : Type :=
| Continue
| Break.

(** [if open_trades >= bot_config['max_open_trades']: break] *)
Definition break_if_capped : M flow :=
  n <- get open_trades ;;
  cfg <- get bot_config ;;
  if Z.leb (max_open_trades cfg) n then ret Break else ret Continue.

(** The two [if] statements that close the loop body. *)
Definition entry_rules (e : env) (symbol : string) (long_align short_align : Z)
    (last prev : row) : M flow :=
  cfg <- get bot_config ;;
  if long_entry cfg long_align prev last then
    process_signal e symbol "Long" (Num (col_c (bar last))) (atr last) ;;
    break_if_capped
  else
    cfg <- get bot_config ;;
    if short_entry cfg short_align prev last then
      process_signal e symbol "Short" (Num (col_c (bar last))) (atr last) ;;
      break_if_capped
    else ret Continue.

(** The [try] block for one symbol. *)
Definition symbol_body (e : env) (symbol : string) : M flow :=
  modify (set_default_type "future") ;;
  cfg <- get bot_config ;;
  htf_data <- gather (map (get_market_data e symbol) (higher_timeframes cfg)) ;;
  cfg <- get bot_config ;;
  align <- lift_outcome (htf_alignment cfg htf_data 0 0) ;;
  cfg <- get bot_config ;;
  df_5m <- get_market_data e symbol (entry_timeframe cfg) ;;
  match df_5m with
  | [] => ret Continue
  | _ =>
      cfg <- get bot_config ;;
      frame <- lift_outcome (calculate_indicators df_5m cfg) ;;
      lp <- lift_outcome (last_and_prev frame) ;;
      entry_rules e symbol (fst align) (snd align) (fst lp) (snd lp)
  end.

Definition check_symbol (e : env) (symbol : string) : M flow :=
  try_except
    (symbol_body e symbol)
    (fun err =>
       modify (set_last_error ("Signal Check Error: " ++ err)) ;;
       ret Continue).

Fixpoint check_symbols (e : env) (symbols : list string) : M unit :=
  match symbols with
  | [] => ret tt
  | symbol :: rest =>
      f <- check_symbol e symbol ;;
      match f with
      | Break => ret tt
      | Continue => check_symbols e rest
      end
  end.

(** First statements of [check_signals], up to the cap test: the result
    tells whether the pass goes on to the symbols. *)
Definition check_signals_entry (e : env) : M bool :=
  modify (set_last_check (strftime_seconds (now e))) ;;
  n <- get open_trades ;;
  cfg <- get bot_config ;;
  ret (negb (Z.leb (max_open_trades cfg) n)).

Definition check_signals (e : env) : M unit :=
  go_on <- check_signals_entry e ;;
  if go_on then
    cfg <- get bot_config ;;
    check_symbols e (active_symbols cfg)
  else ret tt.

(* ------------------------------------------------------------------ *)
(** ** Passes on the event loop *)

(** A call of [check_signals] wrapped in a task.  The event loop runs one
    task at a time and switches only where a task awaits.  [Created]: made
    by [asyncio.create_task], not yet run.  [Scanning rest]: suspended
    inside the loop over symbols, [rest] being the symbols still to do.
    One step of a scanning pass handles one symbol; the program also
    suspends inside a symbol's block, so its interleavings are finer
    than the ones here. *)
Inductive pass : Type :=
| Created
| Scanning (rest : list string)
| Finished.

Definition suspend_on (symbols : list string) : pass :=
  match symbols with
  | [] => Finished
  | _ => Scanning symbols
  end.

Definition step_pass (e : env) (p : pass) : M pass :=
  match p with
  | Created =>
      go_on <- check_signals_entry e ;;
      if go_on then
        cfg <- get bot_config ;;
        ret (suspend_on (active_symbols cfg))
      else ret Finished
  | Scanning [] => ret Finished
  | Scanning (symbol :: rest) =>
      f <- check_symbol e symbol ;;
      match f with
      | Break => ret Finished
      | Continue => ret (suspend_on rest)
      end
  | Finished => ret Finished
  end.

Record system : Type := {
  globals : world;
  passes : list pass
}.

(** The [/api/force_check] handler: [asyncio.create_task(check_signals())]. *)
Definition force_check (s : system) : system * string :=
  ({| globals := globals s; passes := (passes s ++ [Created])%list |},
   "check_started").

(** [startup_event]: [connect] is the exception of [load_markets] or
    [fetch_time], if any.  The scheduler job is registered and a first
    pass is created at once.  Ticks of the scheduler are admitted by the
    scheduler library and are not part of this model. *)
Definition startup_event (connect : option string) (s : system) : system :=
  let w :=
    match connect with
    | None => set_binance_connection "Connected" (globals s)
    | Some err => set_last_error err (set_binance_connection "Failed" (globals s))
    end in
  {| globals := w; passes := (passes s ++ [Created])%list |}.

Fixpoint set_nth {A} (i : nat) (x : A) (l : list A) : list A :=
  match l, i with
  | [], _ => []
  | _ :: rest, O => x :: rest
  | y :: rest, S i' => y :: set_nth i' x rest
  end.

(** The event loop resumes pass [i]; it runs up to its next suspension. *)
Definition resume (i : nat) (e : env) (s : system) : system :=
  match nth_error (passes s) i with
  | None => s
  | Some p =>
      match step_pass e p (globals s) with
      | (Returned p', w) => {| globals := w; passes := set_nth i p' (passes s) |}
      | (Raised _, w) => {| globals := w; passes := set_nth i Finished (passes s) |}
      end
  end.

Inductive event : Type :=
| Startup (connect : option string)
| ForceCheck
| Resume (i : nat) (e : env).

Definition step (s : system) (ev : event) : system :=
  match ev with
  | Startup connect => startup_event connect s
  | ForceCheck => fst (force_check s)
  | Resume i e => resume i e s
  end.

Definition run (s : system) (evs : list event) : system := fold_left step evs s.

Definition is_running (p : pass) : bool :=
  match p with
  | Scanning _ => true
  | _ => false
  end.

Definition running_passes (s : system) : nat :=
  List.length (filter is_running (passes s)).

(** A pass left alone on the loop for [fuel] resumptions. *)
Fixpoint drive (e : env) (fuel : nat) (p : pass) : M pass :=
  match fuel with
  | O => ret p
  | S k => p' <- step_pass e p ;; drive e k p'
  end.

(* ------------------------------------------------------------------ *)
(** ** Vocabulary of the statements *)

(** Everything except [bot_status] and [outbox] is the same. *)
Definition frame (w w' : world) : Prop :=
  telegram_accounts w' = telegram_accounts w
  /\ bot_config w' = bot_config w
  /\ trade_history w' = trade_history w
  /\ open_trades w' = open_trades w
  /\ files w' = files w
  /\ default_type w' = default_type w.

(** The record [process_signal] adds to the history. *)
Definition recorded_entry (e : env) (cfg : config) (symbol signal_type : string)
    (entry_price atr : pyfloat) : dict :=
  make_trade_entry (strftime_minutes (now e)) symbol signal_type entry_price
    (fst (signal_prices cfg signal_type entry_price atr)).

(** Price and volatility estimate used by [fake_signal]. *)
Definition fake_price (e : env) : pyfloat :=
  match fetch_ticker e "BTC/USDT" with
  | Returned p => Num p
  | Raised _ => Num (random_uniform e)
  end.

Definition fake_entry (e : env) (cfg : config) : dict :=
  let price := fake_price e in
  let atr := (price * Num (1 # 100))%F in
  make_trade_entry (strftime_minutes (now e)) "BTC/USDT" "Long" price
    (price - (atr * Num (atr_stop_loss_factor cfg)))%F.

(** Something that puts a record into the history: a detected signal
    handed to [process_signal], or a call of the synthetic-signal hook. *)
Inductive recording : Type :=
| Signal (e : env) (symbol signal_type : string) (entry_price atr : pyfloat)
| Fake (e : env).

Definition record (r : recording) : M unit :=
  match r with
  | Signal e symbol signal_type entry_price atr =>
      process_signal e symbol signal_type entry_price atr
  | Fake e => fake_signal e ;; ret tt
  end.

Fixpoint record_all (rs : list recording) : M unit :=
  match rs with
  | [] => ret tt
  | r :: rest => record r ;; record_all rest
  end.

(** The history record a recording produces under configuration [cfg]. *)
Definition entry_of (cfg : config) (r : recording) : json :=
  match r with
  | Signal e symbol signal_type entry_price atr =>
      json_of_dict (recorded_entry e cfg symbol signal_type entry_price atr)
  | Fake e => json_of_dict (fake_entry e cfg)
  end.

Fixpoint fake_signals (es : list env) : M unit :=
  match es with
  | [] => ret tt
  | e :: rest => fake_signal e ;; fake_signals rest
  end.

(** The keys of a trade record, as [list(trade_entry)] yields them. *)
Definition trade_entry_keys : list json :=
  [JString "time"; JString "asset"; JString "type"; JString "entry_price";
   JString "sl_price"].

(** The Telegram call a task ends up making. *)
Definition deliver (e : env) (t : send_task) : delivery :=
  {| dl_token := task_token t; dl_chat_id := task_chat_id t;
     dl_text := task_message t;
     dl_ok := match bot_send_message e (task_token t) (task_chat_id t)
                      (task_message t) with
              | None => true
              | Some _ => false
              end |}.

(** The tasks a dispatch of [message] has to run in state [w]. *)
Definition dispatch_tasks (message : string) (w : world) : list send_task :=
  build_tasks (telegram_accounts w) message
    (filter ch_active (telegram_channels (bot_config w))).

(** Periods the indicator library accepts. *)
Definition valid_periods (cfg : config) : Prop :=
  2 <= ema_short_period cfg /\ 2 <= ema_long_period cfg
  /\ 2 <= ema_entry_period cfg /\ 2 <= rsi_period cfg /\ 1 <= atr_period cfg.

(** Short and long EMA of the latest sample of a higher-timeframe frame;
    nothing for an empty frame. *)
Definition latest_emas (cfg : config) (df : list candle)
  : option (pyfloat * pyfloat) :=
  match df with
  | [] => None
  | first :: _ =>
      match calculate_indicators df cfg with
      | Returned frame =>
          let latest := iloc_last frame (nan_row first) in
          Some (ema_s latest, ema_l latest)
      | Raised _ => None
      end
  end.

Definition bullish (cfg : config) (df : list candle) : bool :=
  match latest_emas cfg df with
  | Some (s, l) => (s >? l)%F
  | None => false
  end.

Definition bearish (cfg : config) (df : list candle) : bool :=
  match latest_emas cfg df with
  | Some (s, l) => (s <? l)%F
  | None => false
  end.

(** Between [w] and [w'] exactly one signal of the given type went
    through [process_signal]: one more open trade, and its record put on
    the left of the history. *)
Definition recorded (signal_type : string) (w w' : world) : Prop :=
  open_trades w' = (open_trades w + 1)%Z
  /\ exists d,
       trade_history w' = appendleft (json_of_dict d) (trade_history w)
       /\ dict_get "type" d = Some signal_type.

Definition nothing_recorded (w w' : world) : Prop :=
  open_trades w' = open_trades w /\ trade_history w' = trade_history w.

(** The Long condition of the code, spelled out on numbers: every
    indicator it reads is defined and the comparisons are strict. *)
Definition long_rule (cfg : config) (long_align : Z) (prev last : row) : Prop :=
  (2 <= long_align)%Z
  /\ exists prev_rsi last_rsi avg ema,
       rsi prev = Num prev_rsi /\ rsi last = Num last_rsi
       /\ vol_avg last = Num avg /\ ema_e last = Num ema
       /\ (prev_rsi < rsi_oversold cfg)%Q
       /\ (rsi_oversold cfg < last_rsi)%Q
       /\ (volume_factor cfg * avg < col_v (bar last))%Q
       /\ (ema < col_c (bar last))%Q.

Definition short_rule (cfg : config) (short_align : Z) (prev last : row) : Prop :=
  (2 <= short_align)%Z
  /\ exists prev_rsi last_rsi avg ema,
       rsi prev = Num prev_rsi /\ rsi last = Num last_rsi
       /\ vol_avg last = Num avg /\ ema_e last = Num ema
       /\ (rsi_overbought cfg < prev_rsi)%Q
       /\ (last_rsi < rsi_overbought cfg)%Q
       /\ (volume_factor cfg * avg < col_v (bar last))%Q
       /\ (col_c (bar last) < ema)%Q.





(** Results of a list of fetches that do not touch the globals: all of
    them, or the first exception. *)
Fixpoint sequence_outcomes {A} (os : list (outcome A)) : outcome (list A) :=
  match os with
  | [] => Returned []
  | o :: rest =>
      bind_outcome o (fun a =>
      bind_outcome (sequence_outcomes rest) (fun others =>
      Returned (a :: others)))
  end.

(** What the [try] block of a symbol has in hand when it reaches the
    entry rules, or why it does not reach them. *)
Inductive prepared : Type :=
| Failed (err : string)
| Skipped
| Ready (long_align short_align : Z) (last prev : row).

Definition prepare (e : env) (symbol : string) (cfg : config) : prepared :=
  match sequence_outcomes
          (map (fun tf => fetch_ohlcv e symbol tf 201) (higher_timeframes cfg)) with
  | Raised err => Failed err
  | Returned htf_data =>
      match htf_alignment cfg htf_data 0 0 with
      | Raised err => Failed err
      | Returned align =>
          match fetch_ohlcv e symbol (entry_timeframe cfg) 201 with
          | Raised err => Failed err
          | Returned [] => Skipped
          | Returned df_5m =>
              match calculate_indicators df_5m cfg with
              | Raised err => Failed err
              | Returned frame =>
                  match last_and_prev frame with
                  | Raised err => Failed err
                  | Returned lp => Ready (fst align) (snd align) (fst lp) (snd lp)
                  end
              end
          end
      end
  end.

Definition exactly_one_of (A B C : Prop) : Prop :=
  (A /\ ~ B /\ ~ C) \/ (~ A /\ B /\ ~ C) \/ (~ A /\ ~ B /\ C).

(** *** Sample data used by the examples *)

Definition sample_accounts : list account :=
  [ {| acc_id := 1; acc_token := "token-1"; acc_chat_id := "1001";
       acc_name := "Account 1" |};
    {| acc_id := 2; acc_token := "token-2"; acc_chat_id := "1002";
       acc_name := "Account 2" |};
    {| acc_id := 3; acc_token := "token-3"; acc_chat_id := "1003";
       acc_name := "Account 3" |} ].

(** Short periods, so that a handful of candles is enough; three active
    channels; thresholds as in the defaults. *)
Definition sample_config : config := {|
  active_symbols := ["BTC/USDT"];
  entry_timeframe := "5m";
  higher_timeframes := ["30m"; "1h"; "4h"];
  max_open_trades := 2;
  rsi_period := 2; rsi_oversold := 30; rsi_overbought := 70;
  volume_avg_period := 2; volume_factor := 3 # 2;
  ema_short_period := 2; ema_long_period := 5; ema_entry_period := 2;
  atr_period := 2;
  atr_stop_loss_factor := 1;
  atr_take_profit_factor := 2;
  telegram_channels :=
    [ {| ch_id := 1; ch_name := "Account 1"; ch_active := true |};
      {| ch_id := 2; ch_name := "Account 2"; ch_active := true |};
      {| ch_id := 3; ch_name := "Account 3"; ch_active := true |} ]
|}.

Definition sample_bar (close volume : Q) : candle :=
  {| col_t := 0; col_o := close; col_h := (close + 1)%Q;
     col_l := (close - 1)%Q; col_c := close; col_v := volume |}.

(** Six rising closes: short EMA above long EMA at the end. *)
Definition rising_bars : list candle :=
  [ sample_bar 10 1; sample_bar 11 1; sample_bar 12 1; sample_bar 13 1;
    sample_bar 14 1; sample_bar 15 1 ].

(** Four entry-timeframe candles, fewer than [ema_long_period = 5]: RSI
    goes from 20/3 to 100/3, crossing 30 on the last one, on high volume
    and with the close above the entry EMA. *)
Definition short_entry_bars : list candle :=
  [ sample_bar 100 10; sample_bar 72 10; sample_bar 74 10; sample_bar 80 40 ].

Definition sample_time (s : N) : datetime :=
  {| year := 2024; month := 1; day := 2; hour := 10; minute := 0; second := s |}.

(** The second account's credentials are rejected; sends complete in
    reverse order of creation. *)
Definition sample_env (s : N) : env := {|
  now := sample_time s;
  fetch_ohlcv := fun _ timeframe _ =>
    if String.eqb timeframe "5m" then Returned short_entry_bars
    else Returned rising_bars;
  fetch_ticker := fun _ => Raised "Network error";
  bot_send_message := fun token _ _ =>
    if String.eqb token "token-2" then Some "Unauthorized" else None;
  random_uniform := 65000;
  completion_order := @rev send_task
|}.

Definition sample_world : world :=
  initial_world sample_accounts sample_config [] (fun _ => None).

(** A sample with the given RSI, volume 40 against an average of 20, and
    the given close against an entry EMA of 78. *)
Definition sample_row (rsi_value close : Q) : row :=
  {| bar := sample_bar close 40;
     ema_s := Num 80; ema_l := Num 75; ema_e := Num 78;
     rsi := Num rsi_value; atr := Num 2; vol_avg := Num 20 |}.

(** An exchange with no entry-timeframe candles for the moment. *)
Definition quiet_env : env := {|
  now := sample_time 0;
  fetch_ohlcv := fun _ timeframe _ =>
    if String.eqb timeframe "5m" then Returned [] else Returned rising_bars;
  fetch_ticker := fun _ => Returned 65000%Q;
  bot_send_message := fun _ _ _ => None;
  random_uniform := 65000;
  completion_order := fun ts => ts
|}.

(** The process right after the module body has run, before startup. *)
Definition sample_system : system :=
  {| globals := sample_world; passes := [] |}.

(* ------------------------------------------------------------------ *)
(** ** Further vocabulary and sample data *)

(** Passes run one after the other, one clock reading and one state of
    the exchange per pass. *)
Fixpoint check_signals_many (es : list env) : M unit :=
  match es with
  | [] => ret tt
  | e :: rest => check_signals e ;; check_signals_many rest
  end.

(** The exchange refuses every request about ETH/USDT. *)
Definition eth_down_env : env := {|
  now := sample_time 0;
  fetch_ohlcv := fun symbol timeframe _ =>
    if String.eqb symbol "ETH/USDT" then Raised "RateLimitExceeded"
    else if String.eqb timeframe "5m" then Returned short_entry_bars
    else Returned rising_bars;
  fetch_ticker := fun _ => Raised "RateLimitExceeded";
  bot_send_message := fun _ _ _ => None;
  random_uniform := 65000;
  completion_order := fun ts => ts
|}.

(** A single entry-timeframe candle. *)
Definition one_candle_env : env := {|
  now := sample_time 0;
  fetch_ohlcv := fun _ timeframe _ =>
    if String.eqb timeframe "5m" then Returned [sample_bar 100 10]
    else Returned rising_bars;
  fetch_ticker := fun _ => Raised "RateLimitExceeded";
  bot_send_message := fun _ _ _ => None;
  random_uniform := 65000;
  completion_order := fun ts => ts
|}.

(** The sample state with [n] signals already counted. *)
Definition sample_world_with_open (n : Z) : world :=
  set_open_trades n sample_world.

(** What [send_single_telegram_message] leaves in [last_error] when the
    send of task [t] raises [err]. *)
Definition failure_note (t : send_task) (err : string) : string :=
  "Failed to send to " ++ task_chat_id t ++ ": " ++ err.

(** The outcome of the Telegram call of task [t]. *)
Definition send_outcome (e : env) (t : send_task) : option string :=
  bot_send_message e (task_token t) (task_chat_id t) (task_message t).

(** The task that sends [message] with the credentials of account [a]. *)
Definition task_for (a : account) (message : string) : send_task :=
  {| task_token := acc_token a; task_chat_id := acc_chat_id a;
     task_message := message |}.

(** The [/api/trade_history] handler: [list(trade_history)[:10]]. *)
Definition get_trade_history (w : world) : list json :=
  firstn 10 (trade_history w).

(** A sample as [sample_row], its ATR still in warm-up. *)
Definition sample_row_without_atr (rsi_value close : Q) : row :=
  {| bar := sample_bar close 40;
     ema_s := Num 80; ema_l := Num 75; ema_e := Num 78;
     rsi := Num rsi_value; atr := NaN; vol_avg := Num 20 |}.

(* ------------------------------------------------------------------ *)
(** ** Module initialisation: accounts and stored data *)

(** Truthiness of a string. *)
Definition truthy (s : string) : bool :=
  match s with
  | EmptyString => false
  | String _ _ => true
  end.

(** One round of the loop that reads the Telegram accounts from the
    process environment; [getenv] is [os.getenv]. *)
Definition account_slot (getenv : string -> option string) (i : N)
  : list account :=
  let token := getenv ("TELEGRAM_TOKEN_" ++ string_of_N i) in
  let chat_id := getenv ("TELEGRAM_CHAT_ID_" ++ string_of_N i) in
  let name :=
    match getenv ("TELEGRAM_NAME_" ++ string_of_N i) with
    | Some n => n
    | None => "Account " ++ string_of_N i
    end in
  match token, chat_id with
  | Some t, Some c =>
      if (truthy t && truthy c)%bool
      then [ {| acc_id := Z.of_N i; acc_token := t; acc_chat_id := c;
                acc_name := name |} ]
      else []
  | _, _ => []
  end.

(** [telegram_accounts] as the module body builds it, [i] in 1..4. *)
Definition load_telegram_accounts (getenv : string -> option string)
  : list account :=
  flat_map (account_slot getenv) [1%N; 2%N; 3%N; 4%N].

(** [d[k] = v] on a dict kept in insertion order. *)
Fixpoint dict_set {V} (k : string) (v : V) (d : list (string * V))
  : list (string * V) :=
  match d with
  | [] => [(k, v)]
  | (k', v') :: rest =>
      if String.eqb k k' then (k, v) :: rest else (k', v') :: dict_set k v rest
  end.

(** [d[k]], if there. *)
Fixpoint dict_lookup {V} (k : string) (d : list (string * V)) : option V :=
  match d with
  | [] => None
  | (k', v) :: rest => if String.eqb k k' then Some v else dict_lookup k rest
  end.

(** [d.update(other)] for a mapping [other]. *)
Definition dict_update {V} (d other : list (string * V)) : list (string * V) :=
  fold_left (fun acc kv => dict_set (fst kv) (snd kv) acc) other d.

(** What [load_json] can find at a path: no file; a file whose text the
    JSON parser rejects with [json.JSONDecodeError]; a file that cannot be
    opened, decoded as text or parsed for another reason, [err] being
    the exception this raises ([OSError], [UnicodeDecodeError],
    [RecursionError]); or a JSON value. *)
Inductive file_state : Type :=
| Missing
| Garbled
| Unreadable (err : string)
| Stored (data : json).

(** [load_json(file_path, default_data)].  Only [json.JSONDecodeError] is
    caught; any other exception leaves the function.  [update_from]
    stands for [dict.update] called with something that is not a mapping
    (it may raise); the function itself decides nothing there. *)
Definition load_json
    (update_from : list (string * json) -> json -> outcome (list (string * json)))
    (disk : string -> file_state) (file_path : string) (default_data : json)
  : outcome json :=
  match disk file_path with
  | Missing => Returned default_data
  | Garbled => Returned default_data
  | Unreadable err => Raised err
  | Stored saved_data =>
      match default_data with
      | JObject defaults =>
          match saved_data with
          | JObject saved => Returned (JObject (dict_update defaults saved))
          | _ =>
              bind_outcome (update_from defaults saved_data)
                (fun updated_config => Returned (JObject updated_config))
          end
      | _ =>
          match saved_data with
          | JArray _ => Returned saved_data
          | _ => Returned default_data
          end
      end
  end.



(** The value a key ends up with when the pairs are stored one after the
    other. *)
Fixpoint last_binding {V} (k : string) (d : list (string * V)) : option V :=
  match d with
  | [] => None
  | (k', v) :: rest =>
      match last_binding k rest with
      | Some v' => Some v'
      | None => if String.eqb k k' then Some v else None
      end
  end.

(** An environment with accounts 1 and 3 set up, 2 lacking its chat id. *)
Definition sample_getenv (name : string) : option string :=
  if String.eqb name "TELEGRAM_TOKEN_1" then Some "token-1"
  else if String.eqb name "TELEGRAM_CHAT_ID_1" then Some "1001"
  else if String.eqb name "TELEGRAM_TOKEN_2" then Some "token-2"
  else if String.eqb name "TELEGRAM_CHAT_ID_2" then Some ""
  else if String.eqb name "TELEGRAM_TOKEN_3" then Some "token-3"
  else if String.eqb name "TELEGRAM_CHAT_ID_3" then Some "1003"
  else if String.eqb name "TELEGRAM_NAME_3" then Some "Desk"
  else None.

(** [dict.update] refusing whatever is not a mapping. *)
Definition refuse_update (d : list (string * json)) (other : json)
  : outcome (list (string * json)) :=
  Raised "dictionary update sequence element has the wrong length".

(* ------------------------------------------------------------------ *)
(** ** The live-prices endpoint *)

Definition lower_ascii (a : ascii) : ascii :=
  let n := nat_of_ascii a in
  if (Nat.leb 65 n && Nat.leb n 90)%bool then ascii_of_nat (n + 32) else a.

(** [str.lower()] on ASCII text. *)
Fixpoint lower (s : string) : string :=
  match s with
  | EmptyString => EmptyString
  | String a rest => String (lower_ascii a) (lower rest)
  end.

(** [str.capitalize()] on ASCII text. *)
Definition capitalize (s : string) : string :=
  match s with
  | EmptyString => EmptyString
  | String a rest => String (upper_ascii a) (lower rest)
  end.

(** [needle in haystack] *)
Fixpoint contains (needle haystack : string) : bool :=
  match haystack with
  | EmptyString => String.prefix needle EmptyString
  | String _ rest => (String.prefix needle haystack || contains needle rest)%bool
  end.

Definition set_market_type (s : string) (w : world) : world :=
  {| telegram_accounts := telegram_accounts w; bot_config := bot_config w;
     trade_history := trade_history w;
     bot_status := {| st_status := st_status (bot_status w);
                      last_check := last_check (bot_status w);
                      binance_connection := binance_connection (bot_status w);
                      last_error := last_error (bot_status w);
                      market_type := s |};
     open_trades := open_trades w; files := files w;
     default_type := default_type w; outbox := outbox w |}.

(** A ticker as the exchange returns it: a dict from field names to
    numbers or null. *)
Definition ticker : Type := list (string * option Q).

(** A row of the response: price and change. *)
Definition price_row : Type := (option Q * option Q)%type.

Inductive http_response : Type :=
| Ok200 (body : list (string * price_row))
| Error500.

Definition live_symbols : list string :=
  ["BTC/USDT"; "ETH/USDT"; "XRP/USDT"; "BNB/USDT"].

(** The loop over [symbols]: a ticker that is fetched and truthy (not
    empty) goes into [tickers]; a fetch that raises is only printed. *)
Fixpoint fetch_tickers (fetch : string -> outcome ticker) (symbols : list string)
    (tickers : list (string * ticker)) : list (string * ticker) :=
  match symbols with
  | [] => tickers
  | symbol :: rest =>
      match fetch symbol with
      | Returned [] => fetch_tickers fetch rest tickers
      | Returned ticker_data =>
          fetch_tickers fetch rest (dict_set symbol ticker_data tickers)
      | Raised _ => fetch_tickers fetch rest tickers
      end
  end.

(** [{"price": t['last'], "change": t['percentage']}]; a missing key
    raises [KeyError]. *)
Definition make_price_row (t : ticker) : outcome price_row :=
  match dict_lookup "last" t with
  | None => Raised "'last'"
  | Some price =>
      match dict_lookup "percentage" t with
      | None => Raised "'percentage'"
      | Some change => Returned (price, change)
      end
  end.

Fixpoint price_table (tickers : list (string * ticker))
  : outcome (list (string * price_row)) :=
  match tickers with
  | [] => Returned []
  | (s, t) :: rest =>
      bind_outcome (make_price_row t) (fun r =>
      bind_outcome (price_table rest) (fun rows =>
      Returned ((s, r) :: rows)))
  end.

(** The market tried first, read off the status. *)
Definition market_to_try (st : status) : string :=
  if contains "spot" (lower (market_type st)) then "spot" else "future".

Definition other_market (market : string) : string :=
  if String.eqb market "future" then "spot" else "future".

(** [bot_status.update] with the three keys of a successful fetch. *)
Definition note_connected (market_label : string) (w : world) : world :=
  set_market_type market_label
    (set_last_error "None" (set_binance_connection "Connected" w)).

(** The [/api/live_prices] handler.  [fetch market symbol] is
    [binance.fetch_ticker(symbol)] while the default type is [market].
    The handler is taken as running without another task in between. *)
Definition live_prices (fetch : string -> string -> outcome ticker)
  : M http_response :=
  try_except
    (st <- get bot_status ;;
     let primary := market_to_try st in
     modify (set_default_type primary) ;;
     match fetch_tickers (fetch primary) live_symbols [] with
     | (_ :: _) as tickers =>
         modify (note_connected (capitalize primary)) ;;
         body <- lift_outcome (price_table tickers) ;;
         ret (Ok200 body)
     | [] =>
         let fallback_market := other_market primary in
         modify (set_default_type fallback_market) ;;
         match fetch_tickers (fetch fallback_market) live_symbols [] with
         | (_ :: _) as tickers =>
             modify (note_connected
                       (capitalize fallback_market ++ " (Fallback)")) ;;
             body <- lift_outcome (price_table tickers) ;;
             ret (Ok200 body)
         | [] =>
             raise
               "Failed to fetch price data from both Futures and Spot markets."
         end
     end)
    (fun err =>
       modify (fun w =>
                 set_last_error err
                   (set_binance_connection "Price Fetch Failed" w)) ;;
       ret Error500).

(** Futures give nothing, spot answers for BTC/USDT only. *)
Definition spot_only_exchange (market symbol : string) : outcome ticker :=
  if String.eqb market "spot" then
    if String.eqb symbol "BTC/USDT"
    then Returned [("last", Some 65000%Q); ("percentage", Some (3 # 2)%Q)]
    else Raised "BadSymbol"
  else Returned [].


(** What a successful answer is made of: rows for symbols of the list,
    each with the price and change of the ticker [market] returned. *)
Definition served_from (fetch : string -> string -> outcome ticker)
    (market : string) (body : list (string * price_row)) : Prop :=
  body <> []
  /\ forall s price change,
       In (s, (price, change)) body ->
       In s live_symbols
       /\ exists t,
            fetch market s = Returned t
            /\ dict_lookup "last" t = Some price
            /\ dict_lookup "percentage" t = Some change.

(* ------------------------------------------------------------------ *)
(** ** The live-prices endpoint among other tasks *)

(** One [await binance.fetch_ticker(symbol)] with other tasks on the
    event loop: [before] is what they do to the globals until the
    request is built, [after] what they do while the answer is awaited.
    The exchange answers for the default type in force when the request
    is built, which is the shared [binance.options['defaultType']]. *)
Definition await_fetch_ticker (fetch : string -> string -> outcome ticker)
    (before after : world -> world) (symbol : string) : M (outcome ticker) :=
  fun w =>
    let w1 := before w in
    (Returned (fetch (default_type w1) symbol), after w1).

(** The loop over [symbols]; the fetch of the [k]-th await of the handler
    is surrounded by [others (2 * k)] and [others (2 * k + 1)]. *)
Fixpoint fetch_tickers_among (fetch : string -> string -> outcome ticker)
    (others : nat -> world -> world) (k : nat) (symbols : list string)
    (tickers : list (string * ticker)) : M (list (string * ticker)) :=
  match symbols with
  | [] => ret tickers
  | symbol :: rest =>
      answer <- await_fetch_ticker fetch (others (2 * k)) (others (2 * k + 1))
                  symbol ;;
      match answer with
      | Returned [] => fetch_tickers_among fetch others (S k) rest tickers
      | Returned ticker_data =>
          fetch_tickers_among fetch others (S k) rest
            (dict_set symbol ticker_data tickers)
      | Raised _ => fetch_tickers_among fetch others (S k) rest tickers
      end
  end.

(** The [/api/live_prices] handler with the other tasks of the event
    loop running at its awaits. *)
Definition live_prices_among (fetch : string -> string -> outcome ticker)
    (others : nat -> world -> world) : M http_response :=
  try_except
    (st <- get bot_status ;;
     let primary := market_to_try st in
     modify (set_default_type primary) ;;
     tickers <- fetch_tickers_among fetch others 0 live_symbols [] ;;
     match tickers with
     | _ :: _ =>
         modify (note_connected (capitalize primary)) ;;
         body <- lift_outcome (price_table tickers) ;;
         ret (Ok200 body)
     | [] =>
         let fallback_market := other_market primary in
         modify (set_default_type fallback_market) ;;
         tickers <- fetch_tickers_among fetch others
                      (List.length live_symbols) live_symbols [] ;;
         match tickers with
         | _ :: _ =>
             modify (note_connected
                       (capitalize fallback_market ++ " (Fallback)")) ;;
             body <- lift_outcome (price_table tickers) ;;
             ret (Ok200 body)
         | [] =>
             raise
               "Failed to fetch price data from both Futures and Spot markets."
         end
     end)
    (fun err =>
       modify (fun w =>
                 set_last_error err
                   (set_binance_connection "Price Fetch Failed" w)) ;;
       ret Error500).

(** No other task does anything. *)
Definition nobody (k : nat) (w : world) : world := w.

(** A scan pass reaches its line [binance.options['defaultType'] =
    'future'] while the first ticker is awaited. *)
Definition pass_after_first_fetch (k : nat) (w : world) : world :=
  if Nat.eqb k 1 then set_default_type "future" w else w.

(** Spot and futures quote different prices for every symbol. *)
Definition two_price_exchange (market symbol : string) : outcome ticker :=
  if String.eqb market "spot"
  then Returned [("last", Some 100%Q); ("percentage", Some 1%Q)]
  else Returned [("last", Some 200%Q); ("percentage", Some 2%Q)].

(** The sample state with spot noted as the market in use. *)
Definition sample_world_on_spot : world := set_market_type "Spot" sample_world.

(* ================================================================== *)
(** * Properties *)

(** ** What a Telegram dispatch can and cannot touch *)

Lemma frame_refl w : frame w w.
Proof. repeat split. Qed.

Lemma frame_trans w1 w2 w3 : frame w1 w2 -> frame w2 w3 -> frame w1 w3.
Proof.
  unfold frame. intros (a1 & b1 & c1 & d1 & e1 & f1) (a2 & b2 & c2 & d2 & e2 & f2).
  repeat split; congruence.
Qed.

Lemma run_task_returns e t w :
  exists w', run_task e t w = (Returned tt, w') /\ frame w w'.
Proof.
  unfold run_task, send_single_telegram_message, try_except, bot_send, modify.
  destruct (bot_send_message e (task_token t) (task_chat_id t) (task_message t));
    eexists; split; try reflexivity; repeat split.
Qed.

Lemma gather_return_exceptions_settles e tasks :
  forall w, exists rs w',
    gather_return_exceptions (map (run_task e) tasks) w = (Returned rs, w')
    /\ List.length rs = List.length tasks
    /\ frame w w'.
Proof.
  induction tasks as [|t rest IH]; intros w; simpl.
  - exists [], w. repeat split.
  - destruct (run_task_returns e t w) as (w1 & E1 & F1). rewrite E1.
    destruct (IH w1) as (rs & w2 & E2 & L2 & F2). rewrite E2.
    exists (Returned tt :: rs), w2. split; [reflexivity|]. split.
    + simpl. now rewrite L2.
    + eapply frame_trans; eassumption.
Qed.

Lemma send_telegram_message_returns e message w :
  exists w', send_telegram_message e message w = (Returned tt, w') /\ frame w w'.
Proof.
  unfold send_telegram_message, bind, get, ret.
  destruct (filter ch_active (telegram_channels (bot_config w))) as [|ch chs].
  - exists w. split; [reflexivity | apply frame_refl].
  - destruct (gather_return_exceptions_settles e
                (completion_order e
                   (build_tasks (telegram_accounts w) message (ch :: chs))) w)
      as (rs & w' & E & _ & F).
    rewrite E. exists w'. split; [reflexivity | exact F].
Qed.

(** ** The bounded history *)

Lemma deque_length items : List.length (deque items) <= maxlen.
Proof. unfold deque. rewrite length_skipn. lia. Qed.

Lemma appendleft_firstn x d :
  List.length d <= maxlen -> appendleft x d = firstn maxlen (x :: d).
Proof.
  intros Hlen. unfold appendleft.
  destruct (Nat.leb maxlen (List.length d)) eqn:Hfull.
  - apply Nat.leb_le in Hfull.
    assert (Heq : List.length d = maxlen) by lia.
    change (firstn maxlen (x :: d)) with (x :: firstn (Nat.pred maxlen) d).
    f_equal. rewrite <- Heq. apply removelast_firstn_len.
  - apply Nat.leb_gt in Hfull.
    change (firstn maxlen (x :: d)) with (x :: firstn (Nat.pred maxlen) d).
    f_equal. symmetry. apply firstn_all2. unfold maxlen in *. simpl. lia.
Qed.

Lemma appendleft_length x d :
  List.length d <= maxlen -> List.length (appendleft x d) <= maxlen.
Proof.
  intros H. rewrite appendleft_firstn by exact H. rewrite length_firstn. lia.
Qed.

Lemma firstn_cons_firstn {A} n (x : A) l :
  firstn n (x :: firstn n l) = firstn n (x :: l).
Proof.
  destruct n as [|n]; [reflexivity|]. rewrite !firstn_cons. f_equal.
  rewrite firstn_firstn. f_equal. lia.
Qed.

(** ** Effect of [process_signal] and [fake_signal] on the globals *)

Lemma process_signal_effect e symbol signal_type entry_price atr w :
  exists w',
    process_signal e symbol signal_type entry_price atr w = (Returned tt, w')
    /\ telegram_accounts w' = telegram_accounts w
    /\ bot_config w' = bot_config w
    /\ open_trades w' = (open_trades w + 1)%Z
    /\ trade_history w' =
         appendleft
           (json_of_dict
              (recorded_entry e (bot_config w) symbol signal_type entry_price atr))
           (trade_history w)
    /\ files w' HISTORY_FILE =
         Some (JArray
                 (list_of_dict
                    (recorded_entry e (bot_config w) symbol signal_type
                       entry_price atr))).
Proof.
  unfold process_signal, recorded_entry, bind, modify, get, save_json. simpl.
  destruct (signal_prices (bot_config w) signal_type entry_price atr)
    as [sl_price tp_price] eqn:Hp. simpl.
  match goal with
  | |- context [send_telegram_message e ?m ?w0] =>
      destruct (send_telegram_message_returns e m w0)
        as (w' & E & Ha & Hc & Hh & Ho & Hf & _)
  end.
  exists w'. rewrite E. split; [reflexivity|].
  rewrite Ha, Hc, Hh, Ho, Hf. simpl. repeat split; reflexivity.
Qed.

Lemma fake_signal_effect e w :
  exists w',
    fake_signal e w = (Returned "fake_signal_generated", w')
    /\ telegram_accounts w' = telegram_accounts w
    /\ bot_config w' = bot_config w
    /\ open_trades w' = open_trades w
    /\ trade_history w' =
         appendleft (json_of_dict (fake_entry e (bot_config w))) (trade_history w)
    /\ files w' HISTORY_FILE = Some (JArray (trade_history w')).
Proof.
  unfold fake_signal, fake_entry, fake_price, bind, try_except, lift_outcome,
    modify, get, save_json, ret.
  destruct (fetch_ticker e "BTC/USDT") as [p|err]; simpl;
    match goal with
    | |- context [send_telegram_message e ?m ?w0] =>
        destruct (send_telegram_message_returns e m w0)
          as (w' & E & Ha & Hc & Hh & Ho & Hf & _)
    end;
    exists w'; rewrite E; (split; [reflexivity|]);
    rewrite Ha, Hc, Hh, Ho, Hf; simpl; repeat split; reflexivity.
Qed.

(** ** History bound (C7) *)

Lemma firstn_app_firstn {A} (l m : list A) :
  forall n k, n <= k -> firstn n (l ++ firstn k m)%list = firstn n (l ++ m)%list.
Proof.
  induction l as [|x l IH]; intros n k Hnk; simpl.
  - rewrite firstn_firstn. f_equal. lia.
  - destruct n as [|n]; [reflexivity|]. simpl. f_equal. apply IH. lia.
Qed.

Lemma record_effect r w :
  exists w',
    record r w = (Returned tt, w')
    /\ bot_config w' = bot_config w
    /\ trade_history w' = appendleft (entry_of (bot_config w) r) (trade_history w).
Proof.
  destruct r as [e symbol signal_type entry_price atr | e]; simpl.
  - destruct (process_signal_effect e symbol signal_type entry_price atr w)
      as (w' & E & _ & Hc & _ & Hh & _).
    exists w'. auto.
  - destruct (fake_signal_effect e w) as (w' & E & _ & Hc & _ & Hh & _).
    exists w'. unfold bind, ret. rewrite E. auto.
Qed.

Lemma record_all_history rs :
  forall w,
    List.length (trade_history w) <= maxlen ->
    exists w',
      record_all rs w = (Returned tt, w')
      /\ bot_config w' = bot_config w
      /\ trade_history w' =
           firstn maxlen
             (rev (map (entry_of (bot_config w)) rs) ++ trade_history w)%list.
Proof.
  induction rs as [|r rest IH]; intros w Hlen; cbn [record_all map rev app].
  - exists w. repeat split. symmetry. apply firstn_all2. exact Hlen.
  - destruct (record_effect r w) as (w1 & E1 & Hc1 & Hh1).
    assert (Hlen1 : List.length (trade_history w1) <= maxlen).
    { rewrite Hh1. apply appendleft_length. exact Hlen. }
    destruct (IH w1 Hlen1) as (w2 & E2 & Hc2 & Hh2).
    exists w2. unfold bind. rewrite E1, E2. split; [reflexivity|].
    split; [congruence|].
    rewrite Hh2, Hh1, Hc1. rewrite appendleft_firstn by exact Hlen.
    rewrite firstn_app_firstn by lia.
    rewrite <- app_assoc. reflexivity.
Qed.

(** C7.  Whatever was loaded at startup and however many signals are
    recorded afterwards (real or synthetic), the history holds at most 50
    records and is the first 50 items of the list made of all records in
    reverse order of recording followed by the startup content: a new
    record goes to the front and the ones dropped are the oldest. *)
Theorem history_bounded_newest_first :
  forall accounts cfg loaded disk (rs : list recording),
    let w := exec (record_all rs) (initial_world accounts cfg loaded disk) in
    List.length (trade_history w) <= 50
    /\ trade_history w =
         firstn 50 (rev (map (entry_of cfg) rs) ++ deque loaded)%list.
Proof.
  intros accounts cfg loaded disk rs. cbv zeta.
  destruct (record_all_history rs (initial_world accounts cfg loaded disk))
    as (w' & E & _ & Hh).
  { cbn [initial_world trade_history]. apply deque_length. }
  unfold exec. rewrite E. cbn [snd initial_world bot_config] in *. split.
  - rewrite Hh. rewrite length_firstn. unfold maxlen. lia.
  - exact Hh.
Qed.

(** ** What is written to the history file (C4) *)

Lemma appendleft_head x d : exists kept, appendleft x d = x :: kept.
Proof.
  unfold appendleft. destruct (Nat.leb maxlen (List.length d)); eauto.
Qed.

(** C4 (defect).  [process_signal] hands [save_json] the list of the new
    record's five keys, which is never the history: the history's first
    item is then the new record, an object. *)
Theorem process_signal_persists_keys :
  forall e symbol signal_type entry_price atr w,
    let w' := exec (process_signal e symbol signal_type entry_price atr) w in
    files w' HISTORY_FILE = Some (JArray trade_entry_keys)
    /\ files w' HISTORY_FILE <> Some (JArray (trade_history w')).
Proof.
  intros e symbol signal_type entry_price atr w. cbv zeta.
  destruct (process_signal_effect e symbol signal_type entry_price atr w)
    as (w' & E & _ & _ & _ & Hh & Hf).
  unfold exec. rewrite E. simpl. rewrite Hf. split; [reflexivity|].
  rewrite Hh.
  destruct (appendleft_head
              (json_of_dict
                 (recorded_entry e (bot_config w) symbol signal_type
                    entry_price atr)) (trade_history w)) as (kept & ->).
  simpl. intros H. discriminate H.
Qed.

(** The sibling path: the synthetic-signal hook persists the history. *)
Lemma fake_signal_persists_history e w :
  let w' := exec (fake_signal e) w in
  files w' HISTORY_FILE = Some (JArray (trade_history w')).
Proof.
  cbv zeta. destruct (fake_signal_effect e w) as (w' & E & _ & _ & _ & _ & Hf).
  unfold exec. rewrite E. exact Hf.
Qed.

(** ** Stop-loss and take-profit (C1) *)

(** The Long branch follows the formulas. *)
Lemma signal_prices_long cfg entry_price atr :
  signal_prices cfg "Long" entry_price atr =
    ((entry_price - atr * Num (atr_stop_loss_factor cfg))%F,
     (entry_price + atr * Num (atr_take_profit_factor cfg))%F).
Proof. reflexivity. Qed.

(** The Short branch takes the stop-loss factor for the target too. *)
Lemma signal_prices_short cfg entry_price atr :
  signal_prices cfg "Short" entry_price atr =
    ((entry_price + atr * Num (atr_stop_loss_factor cfg))%F,
     (entry_price - atr * Num (atr_stop_loss_factor cfg))%F).
Proof. reflexivity. Qed.

(** C1 (defect).  Short signal, entry 100, ATR 10, default factors 1 and
    2: the stop is 110 as the formula says, but the target comes out as
    90 where [entry - atr * atr_take_profit_factor] is 80, and 90.00 is
    what the notification shows. *)
Theorem short_take_profit_uses_stop_factor :
  forall accounts,
    let cfg := DEFAULT_CONFIG accounts in
    let prices := signal_prices cfg "Short" (Num 100) (Num 10) in
    Float.eqv (fst prices) (Num 110)
    /\ Float.eqv (snd prices) (Num 90)
    /\ ~ Float.eqv (snd prices)
           (Num 100 - Num 10 * Num (atr_take_profit_factor cfg))%F
    /\ signal_message "BTC/USDT" "Short" (Num 100) (fst prices) (snd prices) =
         siren ++ " <b>SHORT BTC/USDT</b>" ++ nl ++ nl
           ++ "<b>Entry:</b> $100.00" ++ nl
           ++ "<b>Stop Loss:</b> $110.00" ++ nl
           ++ "<b>Take Profit:</b> $90.00".
Proof.
  intros accounts. cbv zeta. repeat split.
  - intros H. vm_compute in H. discriminate H.
Qed.

(** ** The synthetic-signal hook and the open-trade cap (C10) *)

Lemma fake_signals_effect es :
  forall w, exists w',
    fake_signals es w = (Returned tt, w')
    /\ bot_config w' = bot_config w
    /\ open_trades w' = open_trades w.
Proof.
  induction es as [|e rest IH]; intros w; simpl.
  - exists w. repeat split.
  - destruct (fake_signal_effect e w) as (w1 & E1 & _ & Hc1 & Ho1 & _).
    destruct (IH w1) as (w2 & E2 & Hc2 & Ho2).
    exists w2. unfold bind. rewrite E1, E2. repeat split; congruence.
Qed.

(** C10.  One call of the hook puts its record at the front of the history
    and leaves [open_trades] as it was; after any number of calls
    [open_trades] and the configuration are unchanged, so the cap test at
    the start of a pass gives the same answer as before them. *)
Theorem fake_signal_not_counted :
  forall (es : list env) (e e' : env) (w : world),
    (let w1 := exec (fake_signal e) w in
     open_trades w1 = open_trades w
     /\ trade_history w1 =
          appendleft (json_of_dict (fake_entry e (bot_config w)))
            (trade_history w)
     /\ hd_error (trade_history w1) =
          Some (json_of_dict (fake_entry e (bot_config w))))
    /\ (let wn := exec (fake_signals es) w in
        open_trades wn = open_trades w
        /\ max_open_trades (bot_config wn) = max_open_trades (bot_config w)
        /\ result (check_signals_entry e') wn
           = result (check_signals_entry e') w).
Proof.
  intros es e e' w. split; cbv zeta.
  - destruct (fake_signal_effect e w) as (w1 & E & _ & _ & Ho & Hh & _).
    unfold exec. rewrite E. cbn [snd]. repeat split; try assumption.
    rewrite Hh.
    destruct (appendleft_head (json_of_dict (fake_entry e (bot_config w)))
                (trade_history w)) as (kept & ->).
    reflexivity.
  - destruct (fake_signals_effect es w) as (wn & E & Hc & Ho).
    unfold exec. rewrite E. cbn [snd]. repeat split; try congruence.
    unfold result, check_signals_entry, bind, modify, get, ret. simpl.
    now rewrite Hc, Ho.
Qed.

(** ** Dispatch to the channels (C6) *)

Lemma run_task_delivers e t w :
  exists w',
    run_task e t w = (Returned tt, w')
    /\ outbox w' = (outbox w ++ [deliver e t])%list.
Proof.
  unfold run_task, send_single_telegram_message, try_except, bot_send, modify,
    deliver.
  destruct (bot_send_message e (task_token t) (task_chat_id t) (task_message t));
    eexists; split; reflexivity.
Qed.

Lemma gather_delivers_all e tasks :
  forall w, exists rs w',
    gather_return_exceptions (map (run_task e) tasks) w = (Returned rs, w')
    /\ outbox w' = (outbox w ++ map (deliver e) tasks)%list.
Proof.
  induction tasks as [|t rest IH]; intros w; simpl.
  - exists [], w. split; [reflexivity|]. now rewrite app_nil_r.
  - destruct (run_task_delivers e t w) as (w1 & E1 & O1). rewrite E1.
    destruct (IH w1) as (rs & w2 & E2 & O2). rewrite E2.
    exists (Returned tt :: rs), w2. split; [reflexivity|].
    rewrite O2, O1, <- app_assoc. reflexivity.
Qed.

Lemma build_tasks_nil accounts message : build_tasks accounts message [] = [].
Proof. reflexivity. Qed.

Lemma active_channel_has_task message w ch a :
  In ch (telegram_channels (bot_config w)) ->
  ch_active ch = true ->
  find (fun a' => Z.eqb (acc_id a') (ch_id ch)) (telegram_accounts w) = Some a ->
  In {| task_token := acc_token a; task_chat_id := acc_chat_id a;
        task_message := message |} (dispatch_tasks message w).
Proof.
  intros Hch Hactive Hfind. unfold dispatch_tasks, build_tasks.
  apply in_flat_map. exists ch. split.
  - apply filter_In. split; assumption.
  - rewrite Hfind. now left.
Qed.

(** C6.  Whatever each send does and in whatever order the sends finish,
    a dispatch returns normally, and when it returns every task (one per
    active channel with credentials) has made its Telegram call exactly
    once, failed or not; in particular every active channel that has an
    account finds its call in the outbox, with the account's token and
    chat id and the message, whatever happened to the other calls.  Only
    the status and the outbox can differ afterwards.  With no active
    channel nothing happens at all. *)
Theorem dispatch_isolates_failures :
  forall (e : env) (message : string) (w : world),
    (forall ts, Permutation ts (completion_order e ts)) ->
    exists w' calls,
      send_telegram_message e message w = (Returned tt, w')
      /\ frame w w'
      /\ outbox w' = (outbox w ++ calls)%list
      /\ Permutation calls (map (deliver e) (dispatch_tasks message w))
      /\ (forall ch a,
            In ch (telegram_channels (bot_config w)) ->
            ch_active ch = true ->
            find (fun a' => Z.eqb (acc_id a') (ch_id ch)) (telegram_accounts w)
              = Some a ->
            In {| dl_token := acc_token a; dl_chat_id := acc_chat_id a;
                  dl_text := message;
                  dl_ok := match bot_send_message e (acc_token a)
                                   (acc_chat_id a) message with
                           | None => true
                           | Some _ => false
                           end |} calls)
      /\ (filter ch_active (telegram_channels (bot_config w)) = [] -> w' = w).
Proof.
  intros e message w Hperm.
  destruct (send_telegram_message_returns e message w) as (w' & E & F).
  exists w'.
  pose proof (active_channel_has_task message w) as Hcover.
  unfold dispatch_tasks in *.
  assert (E' := E).
  unfold send_telegram_message, bind, get, ret in E'.
  destruct (filter ch_active (telegram_channels (bot_config w)))
    as [|ch chs] eqn:Hactive.
  - exists []. injection E' as <-.
    split; [exact E|]. split; [exact F|].
    split; [now rewrite app_nil_r|]. split; [apply Permutation_refl|].
    split; [|reflexivity].
    intros ch a Hch Hact Hfind. exact (Hcover ch a Hch Hact Hfind).
  - set (tasks := build_tasks (telegram_accounts w) message (ch :: chs)) in *.
    destruct (gather_delivers_all e (completion_order e tasks) w)
      as (rs & w2 & E2 & O2).
    rewrite E2 in E'. injection E' as <-.
    exists (map (deliver e) (completion_order e tasks)).
    split; [exact E|]. split; [exact F|]. split; [exact O2|].
    split; [apply Permutation_map, Permutation_sym, Hperm|].
    split; [|intros H; discriminate H].
    intros ch0 a Hch Hact Hfind.
    pose proof (Hcover ch0 a Hch Hact Hfind) as Hin.
    apply (in_map (deliver e)) in Hin.
    eapply Permutation_in; [|exact Hin].
    apply Permutation_map. apply Hperm.
Qed.

(** Three active channels, the second with rejected credentials: the call
    returns and the other two were delivered. *)
Lemma dispatch_isolates_failures_witness :
  exists w' calls,
    send_telegram_message (sample_env 0) "hello" sample_world = (Returned tt, w')
    /\ frame sample_world w'
    /\ outbox w' = (outbox sample_world ++ calls)%list
    /\ Permutation calls
         (map (deliver (sample_env 0)) (dispatch_tasks "hello" sample_world))
    /\ (forall ch a,
          In ch (telegram_channels (bot_config sample_world)) ->
          ch_active ch = true ->
          find (fun a' => Z.eqb (acc_id a') (ch_id ch))
            (telegram_accounts sample_world) = Some a ->
          In {| dl_token := acc_token a; dl_chat_id := acc_chat_id a;
                dl_text := "hello";
                dl_ok := match bot_send_message (sample_env 0) (acc_token a)
                                 (acc_chat_id a) "hello" with
                         | None => true
                         | Some _ => false
                         end |} calls)
    /\ (filter ch_active (telegram_channels (bot_config sample_world)) = []
        -> w' = sample_world).
Proof.
  apply (dispatch_isolates_failures (sample_env 0) "hello" sample_world).
  intros ts. simpl. apply Permutation_rev.
Defined.

Example dispatch_sample_outbox :
  map (fun d => (dl_chat_id d, dl_ok d))
      (outbox (exec (send_telegram_message (sample_env 0) "hello") sample_world))
  = [("1003", true); ("1002", false); ("1001", true)].
Proof. reflexivity. Qed.

(** ** Comparisons on floats *)

Lemma Qlt_bool_iff x y : Qlt_bool x y = true <-> (x < y)%Q.
Proof.
  unfold Qlt_bool. rewrite negb_true_iff, <- not_true_iff_false, Qle_bool_iff.
  split; [apply Qnot_le_lt | apply Qlt_not_le].
Qed.

Lemma float_lt_spec a b :
  (a <? b)%F = true <-> exists x y, a = Num x /\ b = Num y /\ (x < y)%Q.
Proof.
  split.
  - destruct a as [|x], b as [|y]; simpl; try discriminate.
    intros H. exists x, y. repeat split. now apply Qlt_bool_iff.
  - intros (x & y & -> & -> & H). simpl. now apply Qlt_bool_iff.
Qed.

Lemma float_gt_spec a b :
  (a >? b)%F = true <-> exists x y, a = Num x /\ b = Num y /\ (y < x)%Q.
Proof.
  unfold Float.gt. rewrite float_lt_spec. split.
  - intros (y & x & -> & -> & H). eauto.
  - intros (x & y & -> & -> & H). eauto.
Qed.


(** ** The indicator functions return on valid periods *)

Lemma EMA_returns real p : 2 <= p -> exists col, Talib.EMA real p = Returned col.
Proof.
  intros Hp. unfold Talib.EMA.
  destruct (Nat.ltb p 1) eqn:E; [apply Nat.ltb_lt in E; lia|].
  destruct (Nat.ltb (List.length real) p); eauto.
Qed.

Lemma RSI_returns real p : 2 <= p -> exists col, Talib.RSI real p = Returned col.
Proof.
  intros Hp. unfold Talib.RSI.
  destruct (Nat.ltb p 2) eqn:E; [apply Nat.ltb_lt in E; lia|].
  destruct real as [|x0 rest]; eauto.
  destruct (Nat.ltb (List.length rest) p); eauto.
Qed.

Lemma ATR_returns high low close p :
  1 <= p -> exists col, Talib.ATR high low close p = Returned col.
Proof.
  intros Hp. unfold Talib.ATR.
  destruct (Nat.ltb p 1) eqn:E; [apply Nat.ltb_lt in E; lia|].
  destruct (combine (combine high low) close) as [|[[hi lo] c0] rest]; eauto.
  destruct (Nat.ltb (List.length rest) p); eauto.
Qed.

(** There is no other outcome than a frame with one row per candle. *)
Lemma calculate_indicators_returns df cfg :
  valid_periods cfg ->
  exists frame,
    calculate_indicators df cfg = Returned frame
    /\ List.length frame = List.length df
    /\ map bar frame = df.
Proof.
  intros (Hs & Hl & He & Hr & Ha). unfold calculate_indicators.
  destruct (EMA_returns (map col_c df) _ Hs) as (c1 & ->).
  destruct (EMA_returns (map col_c df) _ Hl) as (c2 & ->).
  destruct (EMA_returns (map col_c df) _ He) as (c3 & ->).
  destruct (RSI_returns (map col_c df) _ Hr) as (c4 & ->).
  destruct (ATR_returns (map col_h df) (map col_l df) (map col_c df) _ Ha)
    as (c5 & ->).
  simpl. eexists. split; [reflexivity|]. split.
  - rewrite length_map, length_combine, length_seq. lia.
  - rewrite map_map. simpl.
    generalize 0. induction df as [|b rest IH]; intros k; simpl.
    + reflexivity.
    + f_equal. apply IH.
Qed.

(** ** Higher-timeframe alignment (C9) *)

Lemma htf_alignment_counts cfg htf_data :
  valid_periods cfg ->
  forall long_align short_align,
    htf_alignment cfg htf_data long_align short_align =
      Returned
        ((long_align + Z.of_nat (List.length (filter (bullish cfg) htf_data)))%Z,
         (short_align + Z.of_nat (List.length (filter (bearish cfg) htf_data)))%Z).
Proof.
  intros Hv. induction htf_data as [|df rest IH]; intros la sa.
  - simpl. now rewrite !Z.add_0_r.
  - cbn [htf_alignment filter]. destruct df as [|first more].
    + rewrite IH. reflexivity.
    + unfold bullish at 1, bearish at 1, latest_emas.
      destruct (calculate_indicators_returns (first :: more) cfg Hv)
        as (frame & -> & _). cbn [bind_outcome]. rewrite IH.
      destruct (ema_s (iloc_last frame (nan_row first))
                  >? ema_l (iloc_last frame (nan_row first)))%F;
        destruct (ema_s (iloc_last frame (nan_row first))
                    <? ema_l (iloc_last frame (nan_row first)))%F;
        cbn [List.length]; f_equal; f_equal; lia.
Qed.




(** ** The entry rules (C3, C8) *)

Lemma long_entry_iff cfg long_align prev last :
  long_entry cfg long_align prev last = true <-> long_rule cfg long_align prev last.
Proof.
  unfold long_entry, long_rule.
  rewrite !andb_true_iff, Z.leb_le, float_lt_spec, !float_gt_spec.
  split.
  - intros (Ha & ((H1 & H2) & H3) & H4).
    destruct H1 as (x1 & y1 & E1 & F1 & L1). injection F1 as <-.
    destruct H2 as (x2 & y2 & E2 & F2 & L2). injection F2 as <-.
    destruct H3 as (x3 & y3 & E3 & F3 & L3). injection E3 as <-.
    destruct H4 as (x4 & y4 & E4 & F4 & L4). injection E4 as <-.
    destruct (vol_avg last) as [|avg] eqn:Ev; [discriminate F3|].
    simpl in F3. injection F3 as <-.
    split; [exact Ha|]. exists x1, x2, avg, y4. repeat split; assumption.
  - intros (Ha & x1 & x2 & avg & ema & E1 & E2 & E3 & E4 & L1 & L2 & L3 & L4).
    rewrite E1, E2, E3, E4. simpl. repeat split; eauto 10.
Qed.

Lemma short_entry_iff cfg short_align prev last :
  short_entry cfg short_align prev last = true
  <-> short_rule cfg short_align prev last.
Proof.
  unfold short_entry, short_rule.
  rewrite !andb_true_iff, Z.leb_le, !float_lt_spec, !float_gt_spec.
  split.
  - intros (Ha & ((H1 & H2) & H3) & H4).
    destruct H1 as (x1 & y1 & E1 & F1 & L1). injection F1 as <-.
    destruct H2 as (x2 & y2 & E2 & F2 & L2). injection F2 as <-.
    destruct H3 as (x3 & y3 & E3 & F3 & L3). injection E3 as <-.
    destruct H4 as (x4 & y4 & E4 & F4 & L4). injection E4 as <-.
    destruct (vol_avg last) as [|avg] eqn:Ev; [discriminate F3|].
    simpl in F3. injection F3 as <-.
    split; [exact Ha|]. exists x1, x2, avg, y4. repeat split; assumption.
  - intros (Ha & x1 & x2 & avg & ema & E1 & E2 & E3 & E4 & L1 & L2 & L3 & L4).
    rewrite E1, E2, E3, E4. simpl. repeat split; eauto 10.
Qed.


Lemma break_if_capped_pure w : exists f, break_if_capped w = (Returned f, w).
Proof.
  unfold break_if_capped, bind, get, ret.
  destruct (Z.leb (max_open_trades (bot_config w)) (open_trades w)); eauto.
Qed.

Lemma process_signal_recorded e symbol signal_type entry_price atr w :
  exists w',
    process_signal e symbol signal_type entry_price atr w = (Returned tt, w')
    /\ recorded signal_type w w'.
Proof.
  destruct (process_signal_effect e symbol signal_type entry_price atr w)
    as (w' & E & _ & _ & Ho & Hh & _).
  exists w'. split; [exact E|]. split; [exact Ho|].
  eexists. split; [exact Hh|]. unfold recorded_entry, make_trade_entry. simpl.
  reflexivity.
Qed.

(** The three ways the entry rules can go. *)
Lemma entry_rules_cases e symbol long_align short_align last prev w :
  exists f w',
    entry_rules e symbol long_align short_align last prev w = (Returned f, w')
    /\ ((long_entry (bot_config w) long_align prev last = true
         /\ recorded "Long" w w')
        \/ (long_entry (bot_config w) long_align prev last = false
            /\ short_entry (bot_config w) short_align prev last = true
            /\ recorded "Short" w w')
        \/ (long_entry (bot_config w) long_align prev last = false
            /\ short_entry (bot_config w) short_align prev last = false
            /\ w' = w)).
Proof.
  unfold entry_rules, bind, get. cbn [fst snd].
  destruct (long_entry (bot_config w) long_align prev last) eqn:HL.
  - destruct (process_signal_recorded e symbol "Long"
                (Num (col_c (bar last))) (atr last) w) as (w1 & E1 & R1).
    rewrite E1. destruct (break_if_capped_pure w1) as (f & ->).
    exists f, w1. split; [reflexivity|]. left. split; [reflexivity | exact R1].
  - destruct (short_entry (bot_config w) short_align prev last) eqn:HS.
    + destruct (process_signal_recorded e symbol "Short"
                  (Num (col_c (bar last))) (atr last) w) as (w1 & E1 & R1).
      rewrite E1. destruct (break_if_capped_pure w1) as (f & ->).
      exists f, w1. split; [reflexivity|]. right. left.
      split; [reflexivity|]. split; [reflexivity | exact R1].
    + exists Continue, w. split; [reflexivity|]. right. right. repeat split.
Qed.

Lemma json_of_dict_inj d1 : forall d2, json_of_dict d1 = json_of_dict d2 -> d1 = d2.
Proof.
  unfold json_of_dict. induction d1 as [|[k v] d1 IH]; intros [|[k' v'] d2] H;
    simpl in H; try discriminate H; [reflexivity|].
  injection H as Hk Hv Hrest. subst. f_equal. apply IH. now f_equal.
Qed.

Lemma recorded_type_unique t1 t2 w w' :
  recorded t1 w w' -> recorded t2 w w' -> t1 = t2.
Proof.
  intros (_ & d1 & H1 & T1) (_ & d2 & H2 & T2).
  rewrite H1 in H2.
  destruct (appendleft_head (json_of_dict d1) (trade_history w)) as (k1 & K1).
  destruct (appendleft_head (json_of_dict d2) (trade_history w)) as (k2 & K2).
  rewrite K1, K2 in H2.
  assert (Hd : json_of_dict d1 = json_of_dict d2) by congruence.
  apply json_of_dict_inj in Hd. subst d2. congruence.
Qed.

Lemma recorded_not_nothing t w w' : recorded t w w' -> nothing_recorded w w' -> False.
Proof. intros (Ho & _) (Hn & _). lia. Qed.



(** ** One symbol of a pass *)

Lemma gather_fetches e symbol tfs w :
  gather (map (get_market_data e symbol) tfs) w
  = (sequence_outcomes (map (fun tf => fetch_ohlcv e symbol tf 201) tfs), w).
Proof.
  induction tfs as [|tf rest IH]; [reflexivity|].
  cbn [map gather sequence_outcomes]. unfold bind at 1.
  unfold get_market_data at 1, lift_outcome.
  destruct (fetch_ohlcv e symbol tf 201) as [d|err]; [|reflexivity].
  unfold bind at 1. rewrite IH. cbn [bind_outcome].
  destruct (sequence_outcomes _) as [ds|err]; reflexivity.
Qed.

(** The block reads the exchange, computes, and only then may change the
    globals, through the entry rules. *)
Lemma symbol_body_prepare e symbol w :
  symbol_body e symbol w =
    let w0 := set_default_type "future" w in
    match prepare e symbol (bot_config w) with
    | Failed err => (Raised err, w0)
    | Skipped => (Returned Continue, w0)
    | Ready long_align short_align last prev =>
        entry_rules e symbol long_align short_align last prev w0
    end.
Proof.
  unfold symbol_body, prepare. cbv zeta.
  unfold bind at 1. unfold modify at 1.
  unfold bind at 1. unfold get at 1. cbn [bot_config set_default_type].
  unfold bind at 1. rewrite gather_fetches.
  destruct (sequence_outcomes _) as [htf_data|err]; [|reflexivity].
  unfold bind at 1. unfold get at 1. cbn [bot_config set_default_type].
  unfold bind at 1. unfold lift_outcome at 1.
  destruct (htf_alignment (bot_config w) htf_data 0 0) as [align|err];
    [|reflexivity].
  unfold bind at 1. unfold get at 1. cbn [bot_config set_default_type].
  unfold bind at 1. unfold get_market_data, lift_outcome at 1.
  destruct (fetch_ohlcv e symbol (entry_timeframe (bot_config w)) 201)
    as [[|c0 cs]|err]; try reflexivity.
  unfold bind at 1. unfold get at 1. cbn [bot_config set_default_type].
  unfold bind at 1. unfold lift_outcome at 1.
  destruct (calculate_indicators (c0 :: cs) (bot_config w)) as [fr|err];
    [|reflexivity].
  unfold bind at 1. unfold lift_outcome at 1.
  destruct (last_and_prev fr) as [lp|err]; reflexivity.
Qed.

Lemma recorded_after_default_type t s w w' :
  recorded t (set_default_type s w) w' <-> recorded t w w'.
Proof. reflexivity. Qed.

(** What one symbol does to the counters and the history. *)
Lemma check_symbol_cases e symbol w :
  exists f w',
    check_symbol e symbol w = (Returned f, w')
    /\ match prepare e symbol (bot_config w) with
       | Failed err =>
           f = Continue
           /\ w' = set_last_error ("Signal Check Error: " ++ err)
                     (set_default_type "future" w)
       | Skipped => f = Continue /\ w' = set_default_type "future" w
       | Ready long_align short_align last prev =>
           w' = exec (entry_rules e symbol long_align short_align last prev)
                  (set_default_type "future" w)
       end.
Proof.
  unfold check_symbol, try_except. rewrite symbol_body_prepare. cbv zeta.
  destruct (prepare e symbol (bot_config w)) as [err| |la sa last prev].
  - eexists _, _. repeat split.
  - eexists _, _. repeat split.
  - destruct (entry_rules_cases e symbol la sa last prev
                (set_default_type "future" w)) as (f & w' & E & _).
    unfold exec. rewrite E. eexists _, _. split; reflexivity.
Qed.

(** C8.  For one symbol in a pass exactly one of three things happens: a
    Long signal is recorded, a Short signal is recorded, or none is.  And
    whenever the Long condition holds at the entry rules the Long signal
    is the one recorded, whatever the Short condition says. *)
Theorem one_signal_long_first :
  forall e symbol w,
    (let w' := exec (check_symbol e symbol) w in
     exactly_one_of (recorded "Long" w w') (recorded "Short" w w')
       (nothing_recorded w w'))
    /\ (forall long_align short_align last prev,
          long_entry (bot_config w) long_align prev last = true ->
          let w' :=
            exec (entry_rules e symbol long_align short_align last prev) w in
          recorded "Long" w w' /\ ~ recorded "Short" w w').
Proof.
  intros e symbol w. split.
  - cbv zeta. destruct (check_symbol_cases e symbol w) as (f & w' & E & C).
    unfold exec at 1 2 3. rewrite E. cbn [snd].
    assert (Hnone : nothing_recorded w w' ->
                    exactly_one_of (recorded "Long" w w') (recorded "Short" w w')
                      (nothing_recorded w w')).
    { intros N. right. right. split; [|split]; [| |exact N];
        intros R; exact (recorded_not_nothing _ _ _ R N). }
    destruct (prepare e symbol (bot_config w)) as [err| |la sa last prev].
    + apply Hnone. destruct C as (_ & ->). split; reflexivity.
    + apply Hnone. destruct C as (_ & ->). split; reflexivity.
    + destruct (entry_rules_cases e symbol la sa last prev
                  (set_default_type "future" w)) as (f' & w1 & E1 & C1).
      unfold exec in C. rewrite E1 in C. cbn [snd] in C. subst w'.
      destruct C1 as [(_ & R) | [(_ & _ & R) | (_ & _ & ->)]].
      * left. apply recorded_after_default_type in R.
        split; [exact R|]. split.
        -- intros R'. pose proof (recorded_type_unique _ _ _ _ R R') as X.
           discriminate X.
        -- intros N. exact (recorded_not_nothing _ _ _ R N).
      * right. left. apply recorded_after_default_type in R.
        split; [|split; [exact R|]].
        -- intros R'. pose proof (recorded_type_unique _ _ _ _ R R') as X.
           discriminate X.
        -- intros N. exact (recorded_not_nothing _ _ _ R N).
      * apply Hnone. split; reflexivity.
  - intros la sa last prev HL. cbv zeta.
    destruct (entry_rules_cases e symbol la sa last prev w) as (f & w' & E & C).
    unfold exec. rewrite E. cbn [snd].
    destruct C as [(_ & R) | [(HL' & _) | (HL' & _)]]; try congruence.
    split; [exact R|]. intros R'.
    pose proof (recorded_type_unique _ _ _ _ R R') as X. discriminate X.
Qed.

(** Alignment 2, RSI from 25 to 31 across 30, high volume, close above
    the entry EMA: the Long signal is recorded. *)
Lemma one_signal_long_first_witness :
  let w' :=
    exec (entry_rules (sample_env 0) "BTC/USDT" 2 0
            (sample_row 31 80) (sample_row 25 79)) sample_world in
  recorded "Long" sample_world w' /\ ~ recorded "Short" sample_world w'.
Proof.
  apply (proj2 (one_signal_long_first (sample_env 0) "BTC/USDT" sample_world)
           2%Z 0%Z (sample_row 31 80) (sample_row 25 79)).
  reflexivity.
Defined.

(** ** Short and empty candle series (C5) *)

Lemma sequence_outcomes_returns {A B} (g : A -> outcome B) (l : list A) :
  (forall x, In x l -> exists d, g x = Returned d) ->
  exists ds, sequence_outcomes (map g l) = Returned ds.
Proof.
  induction l as [|x rest IH]; intros H; simpl.
  - eauto.
  - destruct (H x (or_introl eq_refl)) as (d & ->).
    destruct IH as (ds & ->); [intros y Hy; apply H; now right|].
    simpl. eauto.
Qed.

Lemma undefined_sample_blocks_rules cfg long_align short_align prev last :
  rsi prev = NaN \/ rsi last = NaN \/ vol_avg last = NaN \/ ema_e last = NaN ->
  long_entry cfg long_align prev last = false
  /\ short_entry cfg short_align prev last = false.
Proof.
  intros H. split.
  - destruct (long_entry cfg long_align prev last) eqn:E; [|reflexivity].
    apply long_entry_iff in E.
    destruct E as (_ & a & b & c & d & E1 & E2 & E3 & E4 & _).
    destruct H as [H | [H | [H | H]]]; congruence.
  - destruct (short_entry cfg short_align prev last) eqn:E; [|reflexivity].
    apply short_entry_iff in E.
    destruct E as (_ & a & b & c & d & E1 & E2 & E3 & E4 & _).
    destruct H as [H | [H | [H | H]]]; congruence.
Qed.

(** C5, as the code has it.  Only an empty series is treated as missing
    data.  With an empty entry-timeframe series the symbol is passed
    over: nothing is recorded, the loop goes on, and if the
    higher-timeframe fetches returned and the periods are valid not even
    an error is noted.  An empty higher-timeframe series adds to neither
    alignment counter.  For any other series [calculate_indicators]
    returns one sample per candle, and the rules record nothing when the
    previous RSI, the latest RSI, the volume average or the entry EMA they
    read is NaN. *)
Theorem only_empty_series_is_skipped :
  forall e symbol w,
    (fetch_ohlcv e symbol (entry_timeframe (bot_config w)) 201 = Returned [] ->
     let w' := exec (check_symbol e symbol) w in
     result (check_symbol e symbol) w = Returned Continue
     /\ nothing_recorded w w'
     /\ (valid_periods (bot_config w) ->
         (forall tf, In tf (higher_timeframes (bot_config w)) ->
                     exists d, fetch_ohlcv e symbol tf 201 = Returned d) ->
         w' = set_default_type "future" w))
    /\ (forall rest long_align short_align,
          htf_alignment (bot_config w) ([] :: rest) long_align short_align
          = htf_alignment (bot_config w) rest long_align short_align)
    /\ (forall df,
          valid_periods (bot_config w) ->
          exists frame,
            calculate_indicators df (bot_config w) = Returned frame
            /\ List.length frame = List.length df)
    /\ (forall long_align short_align last prev,
          rsi prev = NaN \/ rsi last = NaN \/ vol_avg last = NaN
          \/ ema_e last = NaN ->
          exec (entry_rules e symbol long_align short_align last prev) w = w).
Proof.
  intros e symbol w. split; [|split; [|split]].
  - intros Hempty. cbv zeta.
    destruct (check_symbol_cases e symbol w) as (f & w' & E & C).
    unfold exec, result. rewrite E. cbn [fst snd].
    unfold prepare in C. rewrite Hempty in C.
    destruct (sequence_outcomes
                (map (fun tf => fetch_ohlcv e symbol tf 201)
                   (higher_timeframes (bot_config w)))) as [htf_data|err] eqn:S.
    + destruct (htf_alignment (bot_config w) htf_data 0 0) as [align|err] eqn:A.
      * destruct C as (-> & ->). repeat split.
      * destruct C as (-> & ->). repeat split.
        intros Hv _.
        rewrite (htf_alignment_counts _ htf_data Hv 0 0) in A. discriminate A.
    + destruct C as (-> & ->). repeat split.
      intros _ Hf.
      destruct (sequence_outcomes_returns
                  (fun tf => fetch_ohlcv e symbol tf 201)
                  (higher_timeframes (bot_config w)) Hf) as (ds & Hds).
      rewrite Hds in S. discriminate S.
  - reflexivity.
  - intros df Hv.
    destruct (calculate_indicators_returns df (bot_config w) Hv)
      as (frame & E & L & _).
    eauto.
  - intros la sa last prev Hnan.
    destruct (undefined_sample_blocks_rules (bot_config w) la sa prev last Hnan)
      as (HL & HS).
    destruct (entry_rules_cases e symbol la sa last prev w) as (f & w' & E & C).
    unfold exec. rewrite E. cbn [snd].
    destruct C as [(HL' & _) | [(_ & HS' & _) | (_ & _ & ->)]];
      [congruence | congruence | reflexivity].
Qed.

(** No entry-timeframe candles for BTC/USDT: the symbol is passed over. *)
Lemma only_empty_series_is_skipped_witness :
  let w' := exec (check_symbol quiet_env "BTC/USDT") sample_world in
  result (check_symbol quiet_env "BTC/USDT") sample_world = Returned Continue
  /\ nothing_recorded sample_world w'
  /\ (valid_periods (bot_config sample_world) ->
      (forall tf, In tf (higher_timeframes (bot_config sample_world)) ->
                  exists d, fetch_ohlcv quiet_env "BTC/USDT" tf 201 = Returned d) ->
      w' = set_default_type "future" sample_world).
Proof.
  apply (proj1 (only_empty_series_is_skipped quiet_env "BTC/USDT" sample_world)).
  reflexivity.
Defined.

(** C5, counterexample.  Four entry-timeframe candles with the largest
    period at 5: the indicators come back, the long EMA of the latest
    sample being NaN, and a Long signal is recorded for the symbol. *)
Lemma short_series_still_signals :
  List.length short_entry_bars < ema_long_period sample_config
  /\ fetch_ohlcv (sample_env 0) "BTC/USDT" (entry_timeframe sample_config) 201
     = Returned short_entry_bars
  /\ (exists frame,
        calculate_indicators short_entry_bars sample_config = Returned frame
        /\ List.length frame = 4
        /\ ema_l (iloc_last frame (nan_row (sample_bar 0 0))) = NaN)
  /\ recorded "Long" sample_world
       (exec (check_symbol (sample_env 0) "BTC/USDT") sample_world).
Proof.
  split; [vm_compute; lia|]. split; [reflexivity|]. split.
  - eexists. split; [reflexivity|]. split; reflexivity.
  - split; [reflexivity|].
    exists (make_trade_entry "2024-01-02 10:00" "BTC/USDT" "Long"
              (Num 80) (Num (137 # 2))).
    split; reflexivity.
Qed.

(** ** Passes and triggers (C2) *)

Lemma check_symbol_returns e symbol w :
  exists f w', check_symbol e symbol w = (Returned f, w').
Proof.
  destruct (check_symbol_cases e symbol w) as (f & w' & E & _). eauto.
Qed.

Lemma drive_finished e fuel w : drive e fuel Finished w = (Returned Finished, w).
Proof.
  induction fuel as [|k IH]; [reflexivity|].
  cbn [drive step_pass]. unfold bind, ret. exact IH.
Qed.

Lemma drive_symbols e symbols :
  forall w,
    check_symbols e symbols w
      = (Returned tt, exec (check_symbols e symbols) w)
    /\ drive e (List.length symbols) (suspend_on symbols) w
       = (Returned Finished, exec (check_symbols e symbols) w).
Proof.
  induction symbols as [|symbol rest IH]; intros w.
  - split; reflexivity.
  - cbn [List.length drive suspend_on step_pass check_symbols]. unfold exec, bind.
    destruct (check_symbol_returns e symbol w) as (f & w1 & ->).
    destruct f.
    + destruct (IH w1) as (E1 & E2). unfold ret at 1.
      rewrite E2. rewrite E1. split; reflexivity.
    + unfold ret. rewrite drive_finished. split; reflexivity.
Qed.

(** A pass that is alone on the event loop does what a plain call of
    [check_signals] does. *)
Lemma lone_pass_is_check_signals e w :
  drive e (S (List.length (active_symbols (bot_config w)))) Created w
  = (Returned Finished, exec (check_signals e) w).
Proof.
  cbn [drive step_pass]. unfold check_signals, exec.
  unfold bind at 1 2 4 5. unfold check_signals_entry, bind, modify, get, ret.
  cbn [bot_config open_trades set_last_check].
  destruct (Z.leb (max_open_trades (bot_config w)) (open_trades w)); cbn [negb].
  - rewrite drive_finished. reflexivity.
  - set (w1 := set_last_check (strftime_seconds (now e)) w).
    change (bot_config w) with (bot_config w1).
    destruct (drive_symbols e (active_symbols (bot_config w1)) w1) as (E1 & E2).
    rewrite E2, E1. reflexivity.
Qed.

Lemma set_nth_length {A} (x : A) l : forall i, List.length (set_nth i x l) = List.length l.
Proof.
  induction l as [|y rest IH]; intros [|i]; simpl; auto.
Qed.

Lemma set_nth_app_last {A} (x y : A) l :
  set_nth (List.length l) x (l ++ [y])%list = (l ++ [x])%list.
Proof.
  induction l as [|z rest IH]; simpl; [reflexivity | now rewrite IH].
Qed.

Lemma nth_error_app_last {A} (y : A) l :
  nth_error (l ++ [y])%list (List.length l) = Some y.
Proof.
  induction l as [|z rest IH]; simpl; [reflexivity | exact IH].
Qed.

(** C2, as the code has it.  A force-check request is never dropped: it
    adds a pass to the event loop and changes nothing else; when the loop
    first runs that pass it sets [last_check] to the current time and
    goes on to the cap test and the symbols, and the passes that were
    already there stay where they are. *)
Theorem force_check_always_starts_pass :
  forall (s : system) (e : env),
    let s1 := fst (force_check s) in
    let i := List.length (passes s) in
    let s2 := resume i e s1 in
    globals s1 = globals s
    /\ passes s1 = (passes s ++ [Created])%list
    /\ last_check (bot_status (globals s2)) = strftime_seconds (now e)
    /\ passes s2 =
         (passes s ++
            [ if Z.leb (max_open_trades (bot_config (globals s)))
                   (open_trades (globals s))
              then Finished
              else suspend_on (active_symbols (bot_config (globals s))) ])%list.
Proof.
  intros s e. cbv zeta. unfold force_check, resume. cbn [fst globals passes].
  rewrite nth_error_app_last. cbn [step_pass].
  unfold check_signals_entry, bind, modify, get, ret.
  cbn [bot_config open_trades set_last_check].
  destruct (Z.leb (max_open_trades (bot_config (globals s)))
              (open_trades (globals s))); cbn [negb globals passes];
    rewrite set_nth_app_last; repeat split.
Qed.

(** C2, counterexample.  A first request starts a pass, which suspends in
    the scan of BTC/USDT at 10:00:05.  A second request arrives while it
    is suspended: once the loop runs the new pass, two passes are scanning
    and [last_check] reads 10:00:30. *)
Lemma second_trigger_runs_beside_first :
  let s1 := run sample_system [ForceCheck; Resume 0 (sample_env 5)] in
  let s2 := run s1 [ForceCheck; Resume 1 (sample_env 30)] in
  passes s1 = [Scanning ["BTC/USDT"]]
  /\ running_passes s1 = 1
  /\ last_check (bot_status (globals s1)) = "2024-01-02 10:00:05"
  /\ passes s2 = [Scanning ["BTC/USDT"]; Scanning ["BTC/USDT"]]
  /\ running_passes s2 = 2
  /\ last_check (bot_status (globals s2)) = "2024-01-02 10:00:30".
Proof. repeat split. Qed.

(** ** Further examples *)


Example alignment_two_of_three :
  htf_alignment sample_config [rising_bars; []; rising_bars] 0 0
  = Returned (2%Z, 0%Z).
Proof. reflexivity. Qed.

(** A whole pass on the sample exchange: one Long signal for BTC/USDT,
    stop at 80 - 11.5, target at 80 + 2 * 11.5, and the channel with the
    rejected credentials noted as the last error. *)
Example sample_pass :
  let w := exec (check_signals (sample_env 5)) sample_world in
  open_trades w = 1%Z
  /\ trade_history w =
       [ json_of_dict
           (make_trade_entry "2024-01-02 10:00" "BTC/USDT" "Long"
              (Num 80) (Num (137 # 2))) ]
  /\ last_check (bot_status w) = "2024-01-02 10:00:05"
  /\ last_error (bot_status w) = "Failed to send to 1002: Unauthorized"
  /\ map dl_ok (outbox w) = [true; false; true].
Proof. repeat split. Qed.

(* ================================================================== *)
(** * Further properties of the scan pass *)

Lemma break_if_capped_spec w :
  break_if_capped w =
    (Returned (if Z.leb (max_open_trades (bot_config w)) (open_trades w)
               then Break else Continue), w).
Proof.
  unfold break_if_capped, bind, get, ret.
  destruct (Z.leb (max_open_trades (bot_config w)) (open_trades w)); reflexivity.
Qed.

(** What the entry rules do to the counter, and how the loop body ends. *)
Lemma entry_rules_progress e symbol long_align short_align last prev w :
  exists f w',
    entry_rules e symbol long_align short_align last prev w = (Returned f, w')
    /\ bot_config w' = bot_config w
    /\ ((w' = w /\ f = Continue)
        \/ (open_trades w' = (open_trades w + 1)%Z
            /\ f = if Z.leb (max_open_trades (bot_config w)) (open_trades w')
                   then Break else Continue)).
Proof.
  unfold entry_rules, bind, get. cbn [fst snd].
  destruct (long_entry (bot_config w) long_align prev last).
  - destruct (process_signal_effect e symbol "Long"
                (Num (col_c (bar last))) (atr last) w)
      as (w1 & E1 & _ & Hc & Ho & _).
    rewrite E1, break_if_capped_spec, Hc. eexists _, w1.
    split; [reflexivity|]. split; [exact Hc|]. right. split; [exact Ho|reflexivity].
  - destruct (short_entry (bot_config w) short_align prev last).
    + destruct (process_signal_effect e symbol "Short"
                  (Num (col_c (bar last))) (atr last) w)
        as (w1 & E1 & _ & Hc & Ho & _).
      rewrite E1, break_if_capped_spec, Hc. eexists _, w1.
      split; [reflexivity|]. split; [exact Hc|]. right.
      split; [exact Ho|reflexivity].
    + exists Continue, w. split; [reflexivity|]. split; [reflexivity|]. left.
      split; reflexivity.
Qed.

Lemma check_symbol_progress e symbol w :
  exists f w',
    check_symbol e symbol w = (Returned f, w')
    /\ bot_config w' = bot_config w
    /\ ((open_trades w' = open_trades w
         /\ trade_history w' = trade_history w /\ f = Continue)
        \/ (open_trades w' = (open_trades w + 1)%Z
            /\ f = if Z.leb (max_open_trades (bot_config w)) (open_trades w')
                   then Break else Continue)).
Proof.
  unfold check_symbol, try_except. rewrite symbol_body_prepare. cbv zeta.
  destruct (prepare e symbol (bot_config w)) as [err| |la sa last prev].
  - eexists _, _. split; [reflexivity|]. split; [reflexivity|]. left.
    repeat split.
  - eexists _, _. split; [reflexivity|]. split; [reflexivity|]. left.
    repeat split.
  - destruct (entry_rules_progress e symbol la sa last prev
                (set_default_type "future" w)) as (f & w' & E & Hc & C).
    rewrite E. exists f, w'. split; [reflexivity|]. split; [exact Hc|].
    destruct C as [(-> & ->) | (Ho & Hf)].
    + left. repeat split.
    + right. split; [exact Ho | exact Hf].
Qed.

Lemma check_symbol_counter e symbol w :
  let w1 := exec (check_symbol e symbol) w in
  bot_config w1 = bot_config w
  /\ (open_trades w1 = open_trades w
      \/ open_trades w1 = (open_trades w + 1)%Z).
Proof.
  cbv zeta. destruct (check_symbol_progress e symbol w) as (f & w1 & E & Hc & C).
  unfold exec. rewrite E. cbn [snd]. split; [exact Hc|].
  destruct C as [(Ho & _) | (Ho & _)]; auto.
Qed.

Lemma check_symbols_cons e symbol rest w :
  let w1 := exec (check_symbol e symbol) w in
  exec (check_symbols e (symbol :: rest)) w =
    if (Z.ltb (open_trades w) (open_trades w1)
        && Z.leb (max_open_trades (bot_config w)) (open_trades w1))%bool
    then w1
    else exec (check_symbols e rest) w1.
Proof.
  cbv zeta. cbn [check_symbols]. unfold exec, bind.
  destruct (check_symbol_progress e symbol w) as (f & w1 & E & Hc & C).
  rewrite E. cbn [snd].
  destruct C as [(Ho & _ & ->) | (Ho & ->)].
  - rewrite Ho, Z.ltb_irrefl. reflexivity.
  - assert (Hlt : Z.ltb (open_trades w) (open_trades w1) = true)
      by (apply Z.ltb_lt; lia).
    rewrite Hlt. cbn [andb].
    destruct (Z.leb (max_open_trades (bot_config w)) (open_trades w1));
      reflexivity.
Qed.

(** X1.  The loop breaks only at the cap.  Whenever a symbol has recorded
    no signal, or the counter after it is still below the cap, the loop
    goes on with the next symbol from the state that symbol left. *)
Theorem loop_stops_only_at_cap :
  forall e symbol rest w,
    let w1 := exec (check_symbol e symbol) w in
    open_trades w1 = open_trades w
    \/ (open_trades w1 < max_open_trades (bot_config w))%Z ->
    check_symbols e (symbol :: rest) w = check_symbols e rest w1.
Proof.
  intros e symbol rest w. cbv zeta. cbn [check_symbols]. unfold exec, bind.
  destruct (check_symbol_progress e symbol w) as (f & w1 & E & Hc & C).
  rewrite E. cbn [snd]. intros Hgo.
  destruct C as [(Ho & _ & ->) | (Ho & ->)]; [reflexivity|].
  destruct Hgo as [Hsame | Hbelow]; [lia|].
  apply Z.leb_gt in Hbelow. rewrite Hbelow. reflexivity.
Qed.

(** ETH/USDT fails and records nothing: BTC/USDT is still scanned. *)
Lemma loop_stops_only_at_cap_witness :
  check_symbols eth_down_env ("ETH/USDT" :: ["BTC/USDT"]) sample_world
  = check_symbols eth_down_env ["BTC/USDT"]
      (exec (check_symbol eth_down_env "ETH/USDT") sample_world).
Proof.
  apply (loop_stops_only_at_cap eth_down_env "ETH/USDT" ["BTC/USDT"]
           sample_world).
  left. reflexivity.
Defined.

Lemma check_symbols_bounds e symbols :
  forall w,
    let w' := exec (check_symbols e symbols) w in
    bot_config w' = bot_config w
    /\ (open_trades w <= open_trades w')%Z
    /\ (open_trades w' <= open_trades w + Z.of_nat (List.length symbols))%Z
    /\ ((open_trades w < max_open_trades (bot_config w))%Z ->
        (open_trades w' <= max_open_trades (bot_config w))%Z).
Proof.
  induction symbols as [|symbol rest IH]; intros w; cbv zeta.
  - unfold exec. cbn [check_symbols ret snd List.length Z.of_nat].
    repeat split; lia.
  - rewrite check_symbols_cons.
    destruct (check_symbol_counter e symbol w) as (Hc & Ho).
    set (w1 := exec (check_symbol e symbol) w) in *.
    specialize (IH w1). cbv zeta in IH. destruct IH as (I1 & I2 & I3 & I4).
    rewrite Hc in I1, I4.
    cbn [List.length]. rewrite Nat2Z.inj_succ.
    destruct (Z.ltb (open_trades w) (open_trades w1)) eqn:Hlt;
      destruct (Z.leb (max_open_trades (bot_config w)) (open_trades w1)) eqn:Hcap;
      cbn [andb];
      try apply Z.ltb_lt in Hlt; try apply Z.ltb_ge in Hlt;
      try apply Z.leb_le in Hcap; try apply Z.leb_gt in Hcap.
    + split; [exact Hc|]. split; [lia|]. split; [lia|]. intros H. lia.
    + split; [exact I1|]. split; [lia|]. split; [lia|]. intros H. apply I4. lia.
    + split; [exact I1|]. split; [lia|]. split; [lia|]. intros H. apply I4. lia.
    + split; [exact I1|]. split; [lia|]. split; [lia|]. intros H. apply I4. lia.
Qed.

Lemma step_pass_counter e p w :
  exists p' w',
    step_pass e p w = (Returned p', w')
    /\ bot_config w' = bot_config w
    /\ (open_trades w <= open_trades w' <= open_trades w + 1)%Z.
Proof.
  destruct p as [|[|symbol rest]|]; cbn [step_pass].
  - unfold check_signals_entry, bind, modify, get, ret.
    cbn [bot_config open_trades set_last_check].
    destruct (Z.leb (max_open_trades (bot_config w)) (open_trades w));
      cbn [negb]; eexists _, _; (split; [reflexivity|]);
      cbn [bot_config open_trades set_last_check]; (split; [reflexivity | lia]).
  - eexists _, _. split; [reflexivity|]. split; [reflexivity | lia].
  - unfold bind.
    destruct (check_symbol_progress e symbol w) as (f & w1 & E & Hc & C).
    rewrite E.
    assert (Ho : (open_trades w <= open_trades w1 <= open_trades w + 1)%Z)
      by (destruct C as [(Ho & _) | (Ho & _)]; lia).
    destruct f; eexists _, _; (split; [reflexivity|]); (split; assumption).
  - eexists _, _. split; [reflexivity|]. split; [reflexivity | lia].
Qed.

Lemma step_counter s ev :
  bot_config (globals (step s ev)) = bot_config (globals s)
  /\ (open_trades (globals s) <= open_trades (globals (step s ev))
      <= open_trades (globals s) + 1)%Z.
Proof.
  destruct ev as [connect| |i e]; cbn [step].
  - unfold startup_event. destruct connect; cbn; (split; [reflexivity | lia]).
  - cbn. split; [reflexivity | lia].
  - unfold resume. destruct (nth_error (passes s) i) as [p|].
    + destruct (step_pass_counter e p (globals s)) as (p' & w' & E & Hc & Ho).
      rewrite E. cbn [globals]. split; assumption.
    + split; [reflexivity | lia].
Qed.

(** X2.  However passes, force-check requests and the startup are
    interleaved on the event loop, the configuration is left alone and
    [open_trades] never goes down; it rises by at most one for each
    event. *)
Theorem open_trades_never_decreases :
  forall (evs : list event) (s : system),
    let s' := run s evs in
    bot_config (globals s') = bot_config (globals s)
    /\ (open_trades (globals s) <= open_trades (globals s'))%Z
    /\ (open_trades (globals s')
        <= open_trades (globals s) + Z.of_nat (List.length evs))%Z.
Proof.
  induction evs as [|ev rest IH]; intros s; cbv zeta.
  - cbn. repeat split; lia.
  - cbn [run fold_left List.length]. rewrite Nat2Z.inj_succ.
    destruct (step_counter s ev) as (Hc & Ho).
    specialize (IH (step s ev)). cbv zeta in IH. unfold run in IH.
    destruct IH as (I1 & I2 & I3).
    split; [congruence|]. split; lia.
Qed.

Lemma capped_pass w e :
  (max_open_trades (bot_config w) <= open_trades w)%Z ->
  check_signals e w = (Returned tt, set_last_check (strftime_seconds (now e)) w).
Proof.
  intros Hcap. apply Z.leb_le in Hcap.
  unfold check_signals, bind at 1, check_signals_entry, bind, modify, get, ret.
  cbn [bot_config open_trades set_last_check]. rewrite Hcap. reflexivity.
Qed.

(** X3.  Once the counter has reached the cap, a pass looks at no symbol and
    only stamps [last_check]; nothing lowers the counter, so this is what
    every later pass does too. *)
Theorem capped_passes_only_stamp :
  forall (es : list env) (e : env) (w : world),
    (max_open_trades (bot_config w) <= open_trades w)%Z ->
    check_signals_many (es ++ [e])%list w
    = (Returned tt, set_last_check (strftime_seconds (now e)) w).
Proof.
  induction es as [|e0 rest IH]; intros e w Hcap.
  - cbn [app check_signals_many]. unfold bind. rewrite (capped_pass w e Hcap).
    reflexivity.
  - cbn [app check_signals_many]. unfold bind.
    rewrite (capped_pass w e0 Hcap).
    rewrite (IH e (set_last_check (strftime_seconds (now e0)) w)) by exact Hcap.
    reflexivity.
Qed.

(** Two signals counted against a cap of two: three more passes. *)
Lemma capped_passes_only_stamp_witness :
  check_signals_many ([sample_env 1; sample_env 2] ++ [sample_env 3])%list
    (sample_world_with_open 2)
  = (Returned tt,
     set_last_check (strftime_seconds (now (sample_env 3)))
       (sample_world_with_open 2)).
Proof.
  apply (capped_passes_only_stamp [sample_env 1; sample_env 2] (sample_env 3)
           (sample_world_with_open 2)).
  simpl. lia.
Defined.

(** ** Errors inside one symbol *)

Lemma sequence_outcomes_raises {A B} (g : A -> outcome B) (l : list A) x err :
  In x l -> g x = Raised err ->
  exists err', sequence_outcomes (map g l) = Raised err'.
Proof.
  induction l as [|y rest IH]; intros Hin Hx; [destruct Hin|].
  cbn [map sequence_outcomes]. destruct (g y) as [d|e0] eqn:Hy; cbn [bind_outcome].
  - destruct Hin as [-> | Hin]; [congruence|].
    destruct (IH Hin Hx) as (err' & ->). cbn [bind_outcome]. eauto.
  - eauto.
Qed.

Lemma prepare_fails_on_fetch_error e symbol cfg tf err :
  In tf (higher_timeframes cfg) \/ tf = entry_timeframe cfg ->
  fetch_ohlcv e symbol tf 201 = Raised err ->
  exists err', prepare e symbol cfg = Failed err'.
Proof.
  intros Htf Hraise. unfold prepare.
  destruct (sequence_outcomes
              (map (fun tf0 => fetch_ohlcv e symbol tf0 201)
                 (higher_timeframes cfg))) as [htf_data|e1] eqn:S; [|eauto].
  destruct (htf_alignment cfg htf_data 0 0) as [align|e2]; [|eauto].
  destruct Htf as [Hin | ->].
  - destruct (sequence_outcomes_raises
                (fun tf0 => fetch_ohlcv e symbol tf0 201) _ tf err Hin Hraise)
      as (err' & Herr).
    rewrite Herr in S. discriminate S.
  - rewrite Hraise. eauto.
Qed.

(** X4.  When a fetch for a symbol raises, on a higher timeframe or on the
    entry timeframe, the pass writes "Signal Check Error: ..." to
    [last_error], records nothing for that symbol, and carries on with
    the remaining symbols from there. *)
Theorem fetch_error_skips_symbol_only :
  forall e symbol rest w tf err,
    In tf (higher_timeframes (bot_config w))
    \/ tf = entry_timeframe (bot_config w) ->
    fetch_ohlcv e symbol tf 201 = Raised err ->
    exists err',
      let w1 :=
        set_last_error ("Signal Check Error: " ++ err')
          (set_default_type "future" w) in
      exec (check_symbol e symbol) w = w1
      /\ check_symbols e (symbol :: rest) w = check_symbols e rest w1.
Proof.
  intros e symbol rest w tf err Htf Hraise.
  destruct (prepare_fails_on_fetch_error e symbol (bot_config w) tf err Htf Hraise)
    as (err' & Hprep).
  exists err'. cbv zeta.
  assert (E : check_symbol e symbol w
              = (Returned Continue,
                 set_last_error ("Signal Check Error: " ++ err')
                   (set_default_type "future" w))).
  { unfold check_symbol, try_except. rewrite symbol_body_prepare. cbv zeta.
    rewrite Hprep. reflexivity. }
  split.
  - unfold exec. rewrite E. reflexivity.
  - cbn [check_symbols]. unfold bind at 1. rewrite E. reflexivity.
Qed.

(** ETH/USDT cannot be fetched; BTC/USDT after it is still scanned. *)
Lemma fetch_error_skips_symbol_only_witness :
  exists err',
    let w1 :=
      set_last_error ("Signal Check Error: " ++ err')
        (set_default_type "future" sample_world) in
    exec (check_symbol eth_down_env "ETH/USDT") sample_world = w1
    /\ check_symbols eth_down_env ("ETH/USDT" :: ["BTC/USDT"]) sample_world
       = check_symbols eth_down_env ["BTC/USDT"] w1.
Proof.
  apply (fetch_error_skips_symbol_only eth_down_env "ETH/USDT" ["BTC/USDT"]
           sample_world "5m" "RateLimitExceeded").
  - right. reflexivity.
  - reflexivity.
Defined.

Lemma last_and_prev_single x :
  last_and_prev [x] = Raised "single positional indexer is out-of-bounds".
Proof. reflexivity. Qed.

(** X5.  An entry-timeframe series of a single candle has no previous sample:
    with the other fetches in order and valid periods, reading it raises,
    the symbol ends with "single positional indexer is out-of-bounds" in
    [last_error] and nothing is recorded. *)
Theorem one_candle_is_an_error :
  forall e symbol w candle,
    valid_periods (bot_config w) ->
    (forall tf, In tf (higher_timeframes (bot_config w)) ->
                exists d, fetch_ohlcv e symbol tf 201 = Returned d) ->
    fetch_ohlcv e symbol (entry_timeframe (bot_config w)) 201
      = Returned [candle] ->
    check_symbol e symbol w
    = (Returned Continue,
       set_last_error
         "Signal Check Error: single positional indexer is out-of-bounds"
         (set_default_type "future" w)).
Proof.
  intros e symbol w candle Hv Hhtf Hentry.
  unfold check_symbol, try_except. rewrite symbol_body_prepare. cbv zeta.
  unfold prepare.
  destruct (sequence_outcomes_returns
              (fun tf => fetch_ohlcv e symbol tf 201)
              (higher_timeframes (bot_config w)) Hhtf) as (ds & ->).
  rewrite (htf_alignment_counts _ ds Hv 0 0). rewrite Hentry.
  destruct (calculate_indicators_returns [candle] (bot_config w) Hv)
    as (frame & -> & Hlen & _).
  destruct frame as [|x [|y more]]; try discriminate Hlen.
  rewrite last_and_prev_single. reflexivity.
Qed.

Lemma one_candle_is_an_error_witness :
  check_symbol one_candle_env "BTC/USDT" sample_world
  = (Returned Continue,
     set_last_error
       "Signal Check Error: single positional indexer is out-of-bounds"
       (set_default_type "future" sample_world)).
Proof.
  apply (one_candle_is_an_error one_candle_env "BTC/USDT" sample_world
           (sample_bar 100 10)).
  - unfold valid_periods. simpl. lia.
  - intros tf Hin. simpl in Hin.
    destruct Hin as [<- | [<- | [<- | []]]]; eexists; reflexivity.
  - reflexivity.
Defined.

(** ** A symbol evaluated with the cap already reached *)

(** X6.  The body of the loop does not look at the cap before it evaluates a
    symbol (the cap is tested when the pass starts and after a signal).
    So when the counter is already at the cap as a symbol is evaluated,
    which another pass running beside this one can bring about, and the
    Long rule fires, the signal is recorded all the same and the counter
    ends above the cap. *)
Theorem symbol_evaluated_at_cap_still_signals :
  forall e symbol w long_align short_align last prev,
    prepare e symbol (bot_config w) = Ready long_align short_align last prev ->
    long_entry (bot_config w) long_align prev last = true ->
    (max_open_trades (bot_config w) <= open_trades w)%Z ->
    let w' := exec (check_symbol e symbol) w in
    recorded "Long" w w'
    /\ (max_open_trades (bot_config w') < open_trades w')%Z.
Proof.
  intros e symbol w la sa last prev Hprep HL Hcap. cbv zeta.
  unfold check_symbol, try_except, exec.
  rewrite symbol_body_prepare. cbv zeta. rewrite Hprep.
  destruct (entry_rules_cases e symbol la sa last prev
              (set_default_type "future" w)) as (f & w' & E & C).
  destruct (entry_rules_progress e symbol la sa last prev
              (set_default_type "future" w)) as (f2 & w2 & E2 & Hc & _).
  rewrite E in E2. injection E2 as <- <-.
  rewrite E. cbn [snd].
  cbn [bot_config open_trades set_default_type] in *.
  destruct C as [(_ & R) | [(HL' & _) | (HL' & _)]]; try congruence.
  apply recorded_after_default_type in R.
  split; [exact R|]. destruct R as (Ho & _). rewrite Hc. lia.
Qed.

(** Two signals already counted against a cap of two. *)
Lemma symbol_evaluated_at_cap_still_signals_witness :
  let w := sample_world_with_open 2 in
  let w' := exec (check_symbol (sample_env 0) "BTC/USDT") w in
  recorded "Long" w w'
  /\ (max_open_trades (bot_config w') < open_trades w')%Z.
Proof.
  cbv zeta.
  destruct (prepare (sample_env 0) "BTC/USDT"
              (bot_config (sample_world_with_open 2)))
    as [err| |la sa last prev] eqn:Hprep;
    try (vm_compute in Hprep; discriminate Hprep).
  apply (symbol_evaluated_at_cap_still_signals (sample_env 0) "BTC/USDT"
           (sample_world_with_open 2) la sa last prev Hprep).
  - vm_compute in Hprep. injection Hprep as <- <- <- <-. reflexivity.
  - simpl. lia.
Defined.

(* ================================================================== *)
(** * Further properties of the dispatcher *)

Lemma bot_status_set_last_error s w1 w2 :
  bot_status w1 = bot_status w2 ->
  bot_status (set_last_error s w1) = bot_status (set_last_error s w2).
Proof. intros H. unfold set_last_error. cbn [bot_status]. now rewrite H. Qed.

Lemma set_last_error_twice s1 s2 w :
  bot_status (set_last_error s2 (set_last_error s1 w))
  = bot_status (set_last_error s2 w).
Proof. reflexivity. Qed.

Lemma run_task_status e t w :
  exists w',
    run_task e t w = (Returned tt, w')
    /\ match send_outcome e t with
       | None => bot_status w' = bot_status w
       | Some err => bot_status w' = bot_status (set_last_error (failure_note t err) w)
       end.
Proof.
  unfold run_task, send_single_telegram_message, try_except, bot_send, modify,
    send_outcome, failure_note.
  destruct (bot_send_message e (task_token t) (task_chat_id t) (task_message t));
    eexists; split; reflexivity.
Qed.

Lemma gather_status e ts :
  forall w, exists rs w',
    gather_return_exceptions (map (run_task e) ts) w = (Returned rs, w')
    /\ ((bot_status w' = bot_status w
         /\ forall t, In t ts -> send_outcome e t = None)
        \/ (exists t err,
              In t ts /\ send_outcome e t = Some err
              /\ bot_status w'
                 = bot_status (set_last_error (failure_note t err) w))).
Proof.
  induction ts as [|t rest IH]; intros w; cbn [map gather_return_exceptions].
  - exists [], w. split; [reflexivity|]. left. split; [reflexivity|].
    intros t [].
  - destruct (run_task_status e t w) as (w1 & E1 & S1). rewrite E1.
    destruct (IH w1) as (rs & w2 & E2 & C). rewrite E2.
    exists (Returned tt :: rs), w2. split; [reflexivity|].
    destruct (send_outcome e t) as [err|] eqn:Ht.
    + right. destruct C as [(Hs & _) | (t' & err' & Hin & Hf & Hs)].
      * exists t, err. split; [now left|]. split; [exact Ht|]. congruence.
      * exists t', err'. split; [now right|]. split; [exact Hf|].
        rewrite Hs. rewrite (bot_status_set_last_error _ _ _ S1).
        apply set_last_error_twice.
    + destruct C as [(Hs & Hall) | (t' & err' & Hin & Hf & Hs)].
      * left. split; [congruence|].
        intros t0 [<- | Hin]; [exact Ht | now apply Hall].
      * right. exists t', err'. split; [now right|]. split; [exact Hf|].
        rewrite Hs. now apply bot_status_set_last_error.
Qed.

(** X7.  How a dispatch shows in the status.  Either every send succeeded and
    the status is untouched, or some send failed and the status differs
    from the old one only in [last_error], which names the chat and the
    error of one of the failed sends. *)
Theorem dispatch_notes_a_failure :
  forall (e : env) (message : string) (w : world),
    (forall ts, Permutation ts (completion_order e ts)) ->
    let w' := exec (send_telegram_message e message) w in
    (bot_status w' = bot_status w
     /\ forall t, In t (dispatch_tasks message w) -> send_outcome e t = None)
    \/ (exists t err,
          In t (dispatch_tasks message w) /\ send_outcome e t = Some err
          /\ bot_status w' = bot_status (set_last_error (failure_note t err) w)).
Proof.
  intros e message w Hperm. cbv zeta.
  unfold exec, send_telegram_message, bind, get, ret, dispatch_tasks.
  destruct (filter ch_active (telegram_channels (bot_config w)))
    as [|ch chs] eqn:Hactive.
  - left. split; [reflexivity|]. intros t [].
  - set (tasks := build_tasks (telegram_accounts w) message (ch :: chs)).
    destruct (gather_status e (completion_order e tasks) w)
      as (rs & w' & E & C).
    rewrite E. cbn [snd].
    destruct C as [(Hs & Hall) | (t & err & Hin & Hf & Hs)].
    + left. split; [exact Hs|]. intros t Hin. apply Hall.
      eapply Permutation_in; [apply Hperm | exact Hin].
    + right. exists t, err. split; [|split; assumption].
      eapply Permutation_in; [apply Permutation_sym, Hperm | exact Hin].
Qed.

Lemma dispatch_notes_a_failure_witness :
  let w' := exec (send_telegram_message (sample_env 0) "hello") sample_world in
  (bot_status w' = bot_status sample_world
   /\ forall t, In t (dispatch_tasks "hello" sample_world) ->
                send_outcome (sample_env 0) t = None)
  \/ (exists t err,
        In t (dispatch_tasks "hello" sample_world)
        /\ send_outcome (sample_env 0) t = Some err
        /\ bot_status w'
           = bot_status (set_last_error (failure_note t err) sample_world)).
Proof.
  apply (dispatch_notes_a_failure (sample_env 0) "hello" sample_world).
  intros ts. simpl. apply Permutation_rev.
Defined.

Lemma find_none_existsb {A} (f : A -> bool) l :
  find f l = None -> existsb f l = false.
Proof.
  induction l as [|x rest IH]; cbn [find existsb]; [reflexivity|].
  destruct (f x); [discriminate | exact IH].
Qed.

Lemma find_some_existsb {A} (f : A -> bool) l x :
  find f l = Some x -> existsb f l = true.
Proof.
  intros H. apply existsb_exists. exists x. now apply find_some in H.
Qed.

(** The tasks of a dispatch, channel by channel: one for each active
    channel that has an account, for the first account with its id. *)
Lemma build_tasks_by_channel accounts message channels :
  exists accs,
    Forall2
      (fun ch a => find (fun a' => Z.eqb (acc_id a') (ch_id ch)) accounts = Some a)
      (filter
         (fun ch =>
            (ch_active ch
             && existsb (fun a' => Z.eqb (acc_id a') (ch_id ch)) accounts)%bool)
         channels)
      accs
    /\ build_tasks accounts message (filter ch_active channels)
       = map (fun a => task_for a message) accs.
Proof.
  induction channels as [|ch rest (accs & IH1 & IH2)]; cbn [filter].
  - exists []. split; [constructor | reflexivity].
  - destruct (ch_active ch); cbn [andb].
    + destruct (find (fun a' => Z.eqb (acc_id a') (ch_id ch)) accounts)
        as [a|] eqn:Hfind.
      * rewrite (find_some_existsb _ _ _ Hfind). exists (a :: accs). split.
        -- constructor; assumption.
        -- unfold build_tasks in *. cbn [flat_map map]. rewrite Hfind, IH2.
           reflexivity.
      * rewrite (find_none_existsb _ _ Hfind). exists accs. split; [exact IH1|].
        unfold build_tasks in *. cbn [flat_map]. rewrite Hfind, IH2.
        reflexivity.
    + exists accs. split; assumption.
Qed.

(** X8.  Who gets a message.  The calls a dispatch adds to the outbox
    are, up to the order in which they finish, exactly one for each
    active channel that has an account, none for any other channel: the
    call for a channel goes out with the token and chat id of the first
    account whose id is the channel's, and carries the message. *)
Theorem dispatch_reaches_only_active_channels :
  forall (e : env) (message : string) (w : world),
    (forall ts, Permutation ts (completion_order e ts)) ->
    let accounts := telegram_accounts w in
    let served :=
      filter
        (fun ch =>
           (ch_active ch
            && existsb (fun a' => Z.eqb (acc_id a') (ch_id ch)) accounts)%bool)
        (telegram_channels (bot_config w)) in
    exists accs calls,
      outbox (exec (send_telegram_message e message) w)
        = (outbox w ++ calls)%list
      /\ Forall2
           (fun ch a =>
              find (fun a' => Z.eqb (acc_id a') (ch_id ch)) accounts = Some a)
           served accs
      /\ Permutation calls
           (map (fun a =>
                   {| dl_token := acc_token a; dl_chat_id := acc_chat_id a;
                      dl_text := message;
                      dl_ok := match bot_send_message e (acc_token a)
                                       (acc_chat_id a) message with
                               | None => true
                               | Some _ => false
                               end |}) accs).
Proof.
  intros e message w Hperm. cbv zeta.
  destruct (build_tasks_by_channel (telegram_accounts w) message
              (telegram_channels (bot_config w))) as (accs & Hserved & Htasks).
  exists accs.
  unfold exec, send_telegram_message, bind, get, ret.
  destruct (filter ch_active (telegram_channels (bot_config w)))
    as [|ch chs] eqn:Hactive.
  - exists []. cbn [snd]. split; [now rewrite app_nil_r|].
    split; [exact Hserved|].
    destruct accs as [|a accs']; [apply Permutation_refl | discriminate Htasks].
  - destruct (gather_delivers_all e
                (completion_order e
                   (build_tasks (telegram_accounts w) message (ch :: chs))) w)
      as (rs & w2 & E2 & O2).
    rewrite E2. cbn [snd].
    exists (map (deliver e)
              (completion_order e
                 (build_tasks (telegram_accounts w) message (ch :: chs)))).
    split; [exact O2|]. split; [exact Hserved|].
    rewrite Htasks.
    eapply Permutation_trans.
    + apply Permutation_map. apply Permutation_sym. apply Hperm.
    + rewrite map_map. apply Permutation_refl.
Qed.

(** Three active channels with accounts: three calls. *)
Lemma dispatch_reaches_only_active_channels_witness :
  let accounts := telegram_accounts sample_world in
  let served :=
    filter
      (fun ch =>
         (ch_active ch
          && existsb (fun a' => Z.eqb (acc_id a') (ch_id ch)) accounts)%bool)
      (telegram_channels (bot_config sample_world)) in
  exists accs calls,
    outbox (exec (send_telegram_message (sample_env 0) "hello") sample_world)
      = (outbox sample_world ++ calls)%list
    /\ Forall2
         (fun ch a =>
            find (fun a' => Z.eqb (acc_id a') (ch_id ch)) accounts = Some a)
         served accs
    /\ Permutation calls
         (map (fun a =>
                 {| dl_token := acc_token a; dl_chat_id := acc_chat_id a;
                    dl_text := "hello";
                    dl_ok := match bot_send_message (sample_env 0) (acc_token a)
                                     (acc_chat_id a) "hello" with
                             | None => true
                             | Some _ => false
                             end |}) accs).
Proof.
  apply (dispatch_reaches_only_active_channels (sample_env 0) "hello"
           sample_world).
  intros ts. simpl. apply Permutation_rev.
Defined.

(* ================================================================== *)
(** * Further properties of the recorder *)

Lemma firstn_firstn_le {A} (l : list A) n m :
  n <= m -> firstn n (firstn m l) = firstn n l.
Proof. intros H. rewrite firstn_firstn. f_equal. lia. Qed.

(** X9.  The history endpoint returns at most ten records, and they are the
    ten most recent ones, newest first: the first ten of all records in
    reverse order of recording followed by what was loaded at startup. *)
Theorem trade_history_endpoint_shows_latest_ten :
  forall accounts cfg loaded disk (rs : list recording),
    let w := exec (record_all rs) (initial_world accounts cfg loaded disk) in
    List.length (get_trade_history w) <= 10
    /\ get_trade_history w
       = firstn 10 (rev (map (entry_of cfg) rs) ++ deque loaded)%list.
Proof.
  intros accounts cfg loaded disk rs. cbv zeta.
  destruct (record_all_history rs (initial_world accounts cfg loaded disk))
    as (w' & E & _ & Hh).
  { cbn [initial_world trade_history]. apply deque_length. }
  unfold exec, get_trade_history. rewrite E. cbn [snd]. split.
  - rewrite length_firstn. lia.
  - rewrite Hh. cbn [initial_world bot_config trade_history].
    apply firstn_firstn_le. unfold maxlen. lia.
Qed.

Lemma signal_prices_without_atr cfg signal_type entry_price :
  signal_prices cfg signal_type entry_price NaN = (NaN, NaN).
Proof.
  unfold signal_prices.
  destruct (String.eqb signal_type "Long"); destruct entry_price; reflexivity.
Qed.

(** X10.  The entry rules never read the ATR.  When they fire on a sample whose
    ATR is still NaN the signal is recorded all the same, and the record
    put at the front of the history carries the stop-loss text "nan". *)
Theorem signal_without_atr_has_nan_stop :
  forall e symbol long_align short_align last prev w,
    atr last = NaN ->
    long_entry (bot_config w) long_align prev last = true
    \/ short_entry (bot_config w) short_align prev last = true ->
    let w' := exec (entry_rules e symbol long_align short_align last prev) w in
    open_trades w' = (open_trades w + 1)%Z
    /\ exists d,
         hd_error (trade_history w') = Some (json_of_dict d)
         /\ dict_get "asset" d = Some symbol
         /\ dict_get "sl_price" d = Some "nan".
Proof.
  intros e symbol la sa last prev w Hatr Hfire. cbv zeta.
  unfold exec, entry_rules, bind, get. cbn [fst snd].
  assert (Hrec : forall signal_type,
             let w1 := snd (process_signal e symbol signal_type
                              (Num (col_c (bar last))) NaN w) in
             open_trades w1 = (open_trades w + 1)%Z
             /\ exists d,
                  hd_error (trade_history w1) = Some (json_of_dict d)
                  /\ dict_get "asset" d = Some symbol
                  /\ dict_get "sl_price" d = Some "nan").
  { intros signal_type. cbv zeta.
    destruct (process_signal_effect e symbol signal_type
                (Num (col_c (bar last))) NaN w) as (w1 & E & _ & _ & Ho & Hh & _).
    rewrite E. cbn [snd]. split; [exact Ho|].
    exists (recorded_entry e (bot_config w) symbol signal_type
              (Num (col_c (bar last))) NaN).
    rewrite Hh.
    destruct (appendleft_head
                (json_of_dict
                   (recorded_entry e (bot_config w) symbol signal_type
                      (Num (col_c (bar last))) NaN)) (trade_history w))
      as (kept & ->).
    split; [reflexivity|].
    unfold recorded_entry. rewrite signal_prices_without_atr.
    split; reflexivity. }
  rewrite Hatr.
  destruct (long_entry (bot_config w) la prev last) eqn:HL.
  - specialize (Hrec "Long"). cbv zeta in Hrec.
    destruct (process_signal e symbol "Long" (Num (col_c (bar last))) NaN w)
      as [[u|x] w1] eqn:E.
    + rewrite break_if_capped_spec. exact Hrec.
    + exact Hrec.
  - destruct Hfire as [Hfire | Hfire]; [discriminate Hfire|]. rewrite Hfire.
    specialize (Hrec "Short"). cbv zeta in Hrec.
    destruct (process_signal e symbol "Short" (Num (col_c (bar last))) NaN w)
      as [[u|x] w1] eqn:E.
    + rewrite break_if_capped_spec. exact Hrec.
    + exact Hrec.
Qed.

Lemma signal_without_atr_has_nan_stop_witness :
  let w' :=
    exec (entry_rules (sample_env 0) "BTC/USDT" 2 0
            (sample_row_without_atr 31 80) (sample_row 25 79)) sample_world in
  open_trades w' = (open_trades sample_world + 1)%Z
  /\ exists d,
       hd_error (trade_history w') = Some (json_of_dict d)
       /\ dict_get "asset" d = Some "BTC/USDT"
       /\ dict_get "sl_price" d = Some "nan".
Proof.
  apply (signal_without_atr_has_nan_stop (sample_env 0) "BTC/USDT" 2%Z 0%Z
           (sample_row_without_atr 31 80) (sample_row 25 79) sample_world).
  - reflexivity.
  - left. reflexivity.
Defined.

(** X11.  With an ATR and factors that are not negative the stop-loss is
    never on the winning side of the entry price and the target never on
    the losing side: for Long the stop is at most the entry and the
    target at least the entry, for Short the other way round.  (They may
    coincide with the entry.) *)
Theorem stop_and_target_sides :
  forall cfg (entry_price atr_value : Q),
    (0 <= atr_value)%Q ->
    (0 <= atr_stop_loss_factor cfg)%Q ->
    (0 <= atr_take_profit_factor cfg)%Q ->
    (exists stop target,
       signal_prices cfg "Long" (Num entry_price) (Num atr_value)
         = (Num stop, Num target)
       /\ (stop <= entry_price)%Q /\ (entry_price <= target)%Q)
    /\ (exists stop target,
          signal_prices cfg "Short" (Num entry_price) (Num atr_value)
            = (Num stop, Num target)
          /\ (entry_price <= stop)%Q /\ (target <= entry_price)%Q).
Proof.
  intros cfg p a Ha Hsl Htp.
  pose proof (Qmult_le_0_compat _ _ Ha Hsl) as Hs.
  pose proof (Qmult_le_0_compat _ _ Ha Htp) as Ht.
  split; eexists _, _; (split; [reflexivity|]); split.
  - apply Qle_minus_iff.
    setoid_replace (p + - (p - a * atr_stop_loss_factor cfg))%Q
      with (a * atr_stop_loss_factor cfg)%Q by ring.
    exact Hs.
  - apply Qle_minus_iff.
    setoid_replace (p + a * atr_take_profit_factor cfg + - p)%Q
      with (a * atr_take_profit_factor cfg)%Q by ring.
    exact Ht.
  - apply Qle_minus_iff.
    setoid_replace (p + a * atr_stop_loss_factor cfg + - p)%Q
      with (a * atr_stop_loss_factor cfg)%Q by ring.
    exact Hs.
  - apply Qle_minus_iff.
    setoid_replace (p + - (p - a * atr_stop_loss_factor cfg))%Q
      with (a * atr_stop_loss_factor cfg)%Q by ring.
    exact Hs.
Qed.

Lemma stop_and_target_sides_witness :
  (exists stop target,
     signal_prices sample_config "Long" (Num 100) (Num 10)
       = (Num stop, Num target)
     /\ (stop <= 100)%Q /\ (100 <= target)%Q)
  /\ (exists stop target,
        signal_prices sample_config "Short" (Num 100) (Num 10)
          = (Num stop, Num target)
        /\ (100 <= stop)%Q /\ (target <= 100)%Q).
Proof.
  apply (stop_and_target_sides sample_config 100%Q 10%Q); discriminate.
Defined.

(* ================================================================== *)
(** * Properties of the module initialisation *)

Lemma account_slot_cases getenv i :
  account_slot getenv i = []
  \/ exists a,
       account_slot getenv i = [a]
       /\ acc_id a = Z.of_N i
       /\ getenv ("TELEGRAM_TOKEN_" ++ string_of_N i) = Some (acc_token a)
       /\ getenv ("TELEGRAM_CHAT_ID_" ++ string_of_N i) = Some (acc_chat_id a)
       /\ acc_token a <> "" /\ acc_chat_id a <> "".
Proof.
  unfold account_slot.
  destruct (getenv ("TELEGRAM_TOKEN_" ++ string_of_N i)) as [t|]; [|now left].
  destruct (getenv ("TELEGRAM_CHAT_ID_" ++ string_of_N i)) as [c|]; [|now left].
  destruct t as [|t0 t']; [now left|]. destruct c as [|c0 c']; [now left|].
  right. eexists. split; [reflexivity|]. cbn. repeat split; discriminate.
Qed.

Lemma account_slot_present getenv i t c :
  getenv ("TELEGRAM_TOKEN_" ++ string_of_N i) = Some t ->
  getenv ("TELEGRAM_CHAT_ID_" ++ string_of_N i) = Some c ->
  t <> "" -> c <> "" ->
  exists a, account_slot getenv i = [a] /\ acc_token a = t /\ acc_chat_id a = c.
Proof.
  intros Ht Hc Hnt Hnc. unfold account_slot. rewrite Ht, Hc.
  destruct t; [congruence|]. destruct c; [congruence|].
  eexists. repeat split.
Qed.

(** X12.  The accounts read from the environment.  There are at most four, with
    ids among 1..4 in strictly increasing order (no id twice); an account
    is there exactly when both its token and its chat id are set and not
    empty, and it carries these two values. *)
Theorem accounts_come_from_complete_slots :
  forall getenv,
    let accounts := load_telegram_accounts getenv in
    List.length accounts <= 4
    /\ StronglySorted Z.lt (map acc_id accounts)
    /\ (forall a, In a accounts ->
          exists i, In i [1%N; 2%N; 3%N; 4%N]
            /\ acc_id a = Z.of_N i
            /\ getenv ("TELEGRAM_TOKEN_" ++ string_of_N i) = Some (acc_token a)
            /\ getenv ("TELEGRAM_CHAT_ID_" ++ string_of_N i)
               = Some (acc_chat_id a)
            /\ acc_token a <> "" /\ acc_chat_id a <> "")
    /\ (forall i t c,
          In i [1%N; 2%N; 3%N; 4%N] ->
          getenv ("TELEGRAM_TOKEN_" ++ string_of_N i) = Some t ->
          getenv ("TELEGRAM_CHAT_ID_" ++ string_of_N i) = Some c ->
          t <> "" -> c <> "" ->
          exists a, In a accounts /\ acc_id a = Z.of_N i
                    /\ acc_token a = t /\ acc_chat_id a = c).
Proof.
  intros getenv. cbv zeta. unfold load_telegram_accounts.
  split; [|split; [|split]].
  - cbn [flat_map].
    destruct (account_slot_cases getenv 1) as [-> | (a1 & -> & _)];
    destruct (account_slot_cases getenv 2) as [-> | (a2 & -> & _)];
    destruct (account_slot_cases getenv 3) as [-> | (a3 & -> & _)];
    destruct (account_slot_cases getenv 4) as [-> | (a4 & -> & _)];
    simpl; lia.
  - cbn [flat_map].
    destruct (account_slot_cases getenv 1) as [-> | (a1 & -> & I1 & _)];
    destruct (account_slot_cases getenv 2) as [-> | (a2 & -> & I2 & _)];
    destruct (account_slot_cases getenv 3) as [-> | (a3 & -> & I3 & _)];
    destruct (account_slot_cases getenv 4) as [-> | (a4 & -> & I4 & _)];
    simpl;
    repeat match goal with H : acc_id _ = _ |- _ => rewrite H; clear H end;
    repeat (constructor; try lia).
  - intros a Hin. apply in_flat_map in Hin. destruct Hin as (i & Hi & Ha).
    destruct (account_slot_cases getenv i) as [E | (a' & E & Hid & Ht & Hc & Hn)];
      rewrite E in Ha; [destruct Ha|].
    destruct Ha as [<- | []]. exists i. tauto.
  - intros i t c Hi Ht Hc Hnt Hnc.
    destruct (account_slot_present getenv i t c Ht Hc Hnt Hnc)
      as (a & E & Hat & Hac).
    exists a. split.
    + apply in_flat_map. exists i. split; [exact Hi|]. rewrite E. now left.
    + destruct (account_slot_cases getenv i)
        as [E' | (a' & E' & Hid & _)]; rewrite E in E'; [discriminate E'|].
      injection E' as <-. auto.
Qed.

Example sample_accounts_loaded :
  map (fun a => (acc_id a, acc_name a)) (load_telegram_accounts sample_getenv)
  = [(1%Z, "Account 1"); (3%Z, "Desk")].
Proof. reflexivity. Qed.

Lemma accounts_come_from_complete_slots_witness :
  exists a,
    In a (load_telegram_accounts sample_getenv) /\ acc_id a = Z.of_N 3
    /\ acc_token a = "token-3" /\ acc_chat_id a = "1003".
Proof.
  apply (proj2 (proj2 (proj2 (accounts_come_from_complete_slots sample_getenv)))
           3%N "token-3" "1003").
  - simpl. tauto.
  - reflexivity.
  - reflexivity.
  - discriminate.
  - discriminate.
Defined.

Lemma filter_inactive (accounts : list account) :
  filter ch_active
    (map (fun b => {| ch_id := acc_id b; ch_name := acc_name b;
                      ch_active := false |}) accounts) = [].
Proof. induction accounts as [|b rest IH]; simpl; auto. Qed.

(** X13.  With the default configuration, whatever the accounts are, a message
    goes to the first account of the list and to no other; with no
    account it goes nowhere. *)
Theorem default_config_notifies_first_account :
  forall accounts loaded disk message,
    dispatch_tasks message
      (initial_world accounts (DEFAULT_CONFIG accounts) loaded disk)
    = match accounts with
      | [] => []
      | a :: _ => [task_for a message]
      end.
Proof.
  intros accounts loaded disk message.
  unfold dispatch_tasks. cbn [initial_world telegram_accounts bot_config
                              DEFAULT_CONFIG telegram_channels].
  destruct accounts as [|a rest]; [reflexivity|].
  cbn [default_channels filter ch_active]. rewrite filter_inactive.
  unfold build_tasks. cbn [flat_map find ch_id acc_id app].
  rewrite Z.eqb_refl. reflexivity.
Qed.

(** ** Stored data *)

Lemma dict_lookup_set {V} k k' (v : V) d :
  dict_lookup k (dict_set k' v d)
  = if String.eqb k k' then Some v else dict_lookup k d.
Proof.
  induction d as [|[k0 v0] rest IH]; cbn [dict_set dict_lookup].
  - destruct (String.eqb k k'); reflexivity.
  - destruct (String.eqb k' k0) eqn:E0; cbn [dict_lookup].
    + apply String.eqb_eq in E0. subst k0.
      destruct (String.eqb k k'); reflexivity.
    + destruct (String.eqb k k0) eqn:E1.
      * apply String.eqb_eq in E1. subst k0.
        rewrite String.eqb_sym in E0. rewrite E0. reflexivity.
      * exact IH.
Qed.

Lemma dict_lookup_update {V} k (other : list (string * V)) :
  forall d,
    dict_lookup k (dict_update d other)
    = match last_binding k other with
      | Some v => Some v
      | None => dict_lookup k d
      end.
Proof.
  unfold dict_update.
  induction other as [|[k1 v1] rest IH]; intros d; cbn [fold_left last_binding].
  - reflexivity.
  - rewrite IH. cbn [fst snd].
    destruct (last_binding k rest); [reflexivity|].
    rewrite dict_lookup_set. destruct (String.eqb k k1); reflexivity.
Qed.

(** X14.  Reading stored settings over defaults.  A missing file, or one
    whose text the JSON parser rejects, gives the defaults back; a file
    that cannot be read for another reason (bytes that are not UTF-8,
    say) makes [load_json] raise.  A stored object is merged into the
    defaults: a key has the stored value if the file has one (the last,
    if it has several), its default otherwise, so no default key is ever
    lost. *)
Theorem load_json_keeps_every_default :
  forall update_from disk file_path defaults,
    (disk file_path = Missing \/ disk file_path = Garbled ->
     load_json update_from disk file_path (JObject defaults)
     = Returned (JObject defaults))
    /\ (forall err,
          disk file_path = Unreadable err ->
          load_json update_from disk file_path (JObject defaults) = Raised err)
    /\ (forall saved,
          disk file_path = Stored (JObject saved) ->
          exists merged,
            load_json update_from disk file_path (JObject defaults)
            = Returned (JObject merged)
            /\ (forall k,
                  dict_lookup k merged
                  = match last_binding k saved with
                    | Some v => Some v
                    | None => dict_lookup k defaults
                    end)
            /\ (forall k v,
                  dict_lookup k defaults = Some v ->
                  exists v', dict_lookup k merged = Some v')).
Proof.
  intros update_from disk file_path defaults. split; [|split].
  - intros [H | H]; unfold load_json; rewrite H; reflexivity.
  - intros err H. unfold load_json. rewrite H. reflexivity.
  - intros saved H. exists (dict_update defaults saved).
    unfold load_json. rewrite H. split; [reflexivity|]. split.
    + intros k. apply dict_lookup_update.
    + intros k v Hk. rewrite dict_lookup_update.
      destruct (last_binding k saved); eauto.
Qed.

(** A stored file overriding one setting and adding an unknown one. *)
Lemma load_json_keeps_every_default_witness :
  exists merged,
    load_json refuse_update
      (fun p => if String.eqb p CONFIG_FILE
                then Stored (JObject [("entry_timeframe", JString "15m");
                                      ("note", JString "x")])
                else Missing)
      CONFIG_FILE
      (JObject [("entry_timeframe", JString "5m"); ("theme", JString "dark")])
    = Returned (JObject merged)
    /\ (forall k,
          dict_lookup k merged
          = match last_binding k [("entry_timeframe", JString "15m");
                                  ("note", JString "x")] with
            | Some v => Some v
            | None =>
                dict_lookup k [("entry_timeframe", JString "5m");
                               ("theme", JString "dark")]
            end)
    /\ (forall k v,
          dict_lookup k [("entry_timeframe", JString "5m");
                         ("theme", JString "dark")] = Some v ->
          exists v', dict_lookup k merged = Some v').
Proof.
  apply (proj2 (proj2
           (load_json_keeps_every_default refuse_update _ CONFIG_FILE
              [("entry_timeframe", JString "5m"); ("theme", JString "dark")]))).
  reflexivity.
Defined.





(* ================================================================== *)
(** * Properties of the live-prices endpoint *)

Lemma in_dict_set {V} k (v : V) d k' v' :
  In (k', v') (dict_set k v d) -> (k' = k /\ v' = v) \/ In (k', v') d.
Proof.
  induction d as [|[k0 v0] rest IH]; cbn [dict_set].
  - intros [H | []]. injection H as <- <-. now left.
  - destruct (String.eqb k k0).
    + intros [H | H]; [injection H as <- <-; now left | right; now right].
    + intros [H | H]; [right; now left|].
      destruct (IH H) as [? | ?]; [now left | right; now right].
Qed.

Lemma dict_set_not_nil {V} k (v : V) d : dict_set k v d <> [].
Proof.
  destruct d as [|[k0 v0] rest]; cbn [dict_set]; [discriminate|].
  destruct (String.eqb k k0); discriminate.
Qed.

Lemma fetch_tickers_sound fetch symbols :
  forall tickers s t,
    In (s, t) (fetch_tickers fetch symbols tickers) ->
    (In s symbols /\ fetch s = Returned t /\ t <> []) \/ In (s, t) tickers.
Proof.
  induction symbols as [|symbol rest IH]; intros tickers s t Hin;
    cbn [fetch_tickers] in Hin; [now right|].
  destruct (fetch symbol) as [[|f fs]|err] eqn:Hf.
  - destruct (IH _ _ _ Hin) as [(H1 & H2) | H]; [left | now right].
    split; [now right | exact H2].
  - destruct (IH _ _ _ Hin) as [(H1 & H2) | H].
    + left. split; [now right | exact H2].
    + destruct (in_dict_set _ _ _ _ _ H) as [(-> & ->) | H'].
      * left. split; [now left|]. split; [exact Hf | discriminate].
      * now right.
  - destruct (IH _ _ _ Hin) as [(H1 & H2) | H]; [left | now right].
    split; [now right | exact H2].
Qed.


Lemma price_table_rows tickers :
  forall body,
    price_table tickers = Returned body ->
    List.length body = List.length tickers
    /\ forall s r, In (s, r) body ->
         exists t, In (s, t) tickers /\ make_price_row t = Returned r.
Proof.
  induction tickers as [|[s0 t0] rest IH]; intros body H; cbn [price_table] in H.
  - injection H as <-. split; [reflexivity | intros s r []].
  - destruct (make_price_row t0) as [r0|err] eqn:Hr; [|discriminate H].
    cbn [bind_outcome] in H.
    destruct (price_table rest) as [rows|err] eqn:Hrest; [|discriminate H].
    cbn [bind_outcome] in H. injection H as <-.
    destruct (IH rows eq_refl) as (Hlen & Hrows). split.
    + simpl. now rewrite Hlen.
    + intros s r [Heq | Hin].
      * injection Heq as <- <-. exists t0. split; [now left | exact Hr].
      * destruct (Hrows s r Hin) as (t & Ht & Hm). exists t.
        split; [now right | exact Hm].
Qed.

Lemma make_price_row_fields t price change :
  make_price_row t = Returned (price, change) ->
  dict_lookup "last" t = Some price /\ dict_lookup "percentage" t = Some change.
Proof.
  unfold make_price_row.
  destruct (dict_lookup "last" t) as [p|]; [|discriminate].
  destruct (dict_lookup "percentage" t) as [c|]; [|discriminate].
  intros H. injection H as <- <-. split; reflexivity.
Qed.

Lemma price_table_served fetch market tickers body :
  tickers <> [] ->
  (forall s t, In (s, t) tickers -> In s live_symbols /\ fetch market s = Returned t) ->
  price_table tickers = Returned body ->
  served_from fetch market body.
Proof.
  intros Hne Hsound Htable.
  destruct (price_table_rows tickers body Htable) as (Hlen & Hrows). split.
  - intros ->. destruct tickers; [now apply Hne | discriminate Hlen].
  - intros s price change Hin.
    destruct (Hrows _ _ Hin) as (t & Ht & Hm).
    destruct (Hsound _ _ Ht) as (Hs & Hf).
    split; [exact Hs|]. exists t. split; [exact Hf|].
    now apply make_price_row_fields.
Qed.

Lemma market_to_try_cases st :
  market_to_try st = "spot" \/ market_to_try st = "future".
Proof.
  unfold market_to_try.
  destruct (contains "spot" (lower (market_type st))); auto.
Qed.

Lemma primary_tickers_sound (fetch : string -> string -> outcome ticker)
    market tickers :
  fetch_tickers (fetch market) live_symbols [] = tickers ->
  forall s t, In (s, t) tickers -> In s live_symbols /\ fetch market s = Returned t.
Proof.
  intros <- s t Hin.
  destruct (fetch_tickers_sound (fetch market) live_symbols [] s t Hin)
    as [(H1 & H2 & _) | []].
  split; assumption.
Qed.

(** The handler, with its effects on the globals written out. *)
Lemma live_prices_unfold fetch w :
  live_prices fetch w =
    let primary := market_to_try (bot_status w) in
    let w1 := set_default_type primary w in
    let failed err w0 :=
      (Returned Error500,
       set_last_error err (set_binance_connection "Price Fetch Failed" w0)) in
    let serve label tickers w0 :=
      match price_table tickers with
      | Returned body => (Returned (Ok200 body), note_connected label w0)
      | Raised err => failed err (note_connected label w0)
      end in
    match fetch_tickers (fetch primary) live_symbols [] with
    | (_ :: _) as tickers => serve (capitalize primary) tickers w1
    | [] =>
        let w2 := set_default_type (other_market primary) w1 in
        match fetch_tickers (fetch (other_market primary)) live_symbols [] with
        | (_ :: _) as tickers =>
            serve (capitalize (other_market primary) ++ " (Fallback)") tickers w2
        | [] =>
            failed
              "Failed to fetch price data from both Futures and Spot markets."
              w2
        end
    end.
Proof.
  unfold live_prices, try_except, bind, get, modify, ret, raise, lift_outcome.
  cbv zeta.
  destruct (fetch_tickers (fetch (market_to_try (bot_status w))) live_symbols [])
    as [|x xs].
  - destruct (fetch_tickers
                (fetch (other_market (market_to_try (bot_status w))))
                live_symbols []) as [|y ys]; [reflexivity|].
    destruct (price_table (y :: ys)); reflexivity.
  - destruct (price_table (x :: xs)); reflexivity.
Qed.



(** Futures silent, spot answering: served from spot, noted as fallback,
    and spot is what the next call starts with. *)
Example live_prices_falls_back_to_spot :
  let w' := exec (live_prices spot_only_exchange) sample_world in
  result (live_prices spot_only_exchange) sample_world
  = Returned (Ok200 [("BTC/USDT", (Some 65000%Q, Some (3 # 2)%Q))])
  /\ market_type (bot_status w') = "Spot (Fallback)"
  /\ default_type w' = "spot"
  /\ market_to_try (bot_status w') = "spot".
Proof. repeat split. Qed.

(* ================================================================== *)
(** * A pass without a signal *)

Lemma check_symbol_quiet_or_counted e symbol w :
  let w1 := exec (check_symbol e symbol) w in
  open_trades w1 = (open_trades w + 1)%Z
  \/ (open_trades w1 = open_trades w
      /\ trade_history w1 = trade_history w
      /\ files w1 = files w
      /\ outbox w1 = outbox w).
Proof.
  cbv zeta. unfold exec, check_symbol, try_except.
  rewrite symbol_body_prepare. cbv zeta.
  destruct (prepare e symbol (bot_config w)) as [err| |la sa last prev].
  - right. repeat split.
  - right. repeat split.
  - destruct (entry_rules_progress e symbol la sa last prev
                (set_default_type "future" w)) as (f & w' & E & _ & C).
    rewrite E. cbn [snd].
    destruct C as [(-> & _) | (Ho & _)].
    + right. repeat split.
    + left. exact Ho.
Qed.

Lemma check_symbols_quiet e symbols :
  forall w,
    let w' := exec (check_symbols e symbols) w in
    open_trades w' = open_trades w ->
    trade_history w' = trade_history w
    /\ files w' = files w
    /\ outbox w' = outbox w.
Proof.
  induction symbols as [|symbol rest IH]; intros w; cbv zeta.
  - intros _. unfold exec. cbn [check_symbols ret snd]. repeat split.
  - rewrite check_symbols_cons.
    pose proof (check_symbol_quiet_or_counted e symbol w) as Q. cbv zeta in Q.
    set (w1 := exec (check_symbol e symbol) w) in *.
    pose proof (check_symbols_bounds e rest w1) as B. cbv zeta in B.
    destruct B as (_ & Bmono & _).
    specialize (IH w1). cbv zeta in IH.
    destruct Q as [Ho | (Ho & Hh & Hf & Hx)].
    + destruct ((Z.ltb (open_trades w) (open_trades w1)
                 && Z.leb (max_open_trades (bot_config w)) (open_trades w1))%bool);
        intros H; exfalso; lia.
    + rewrite Ho, Z.ltb_irrefl. cbn [andb]. intros H.
      rewrite <- Ho in H. destruct (IH H) as (I1 & I2 & I3).
      repeat split; congruence.
Qed.

(** X19.  A pass that counts no new signal has sent no message, written no
    file and left the history alone. *)
Theorem pass_without_signal_is_silent :
  forall e w,
    let w' := exec (check_signals e) w in
    open_trades w' = open_trades w ->
    trade_history w' = trade_history w
    /\ files w' = files w
    /\ outbox w' = outbox w.
Proof.
  intros e w. cbv zeta.
  unfold check_signals, exec, bind at 1, check_signals_entry, bind, modify,
    get, ret.
  cbn [bot_config open_trades set_last_check].
  destruct (Z.leb (max_open_trades (bot_config w)) (open_trades w));
    cbn [negb snd].
  - intros _. repeat split.
  - set (w1 := set_last_check (strftime_seconds (now e)) w).
    pose proof (check_symbols_quiet e (active_symbols (bot_config w)) w1) as Q.
    cbv zeta in Q. unfold exec in Q. exact Q.
Qed.

(** No entry-timeframe candles: the pass over BTC/USDT counts nothing. *)
Lemma pass_without_signal_is_silent_witness :
  let w' := exec (check_signals quiet_env) sample_world in
  trade_history w' = trade_history sample_world
  /\ files w' = files sample_world
  /\ outbox w' = outbox sample_world.
Proof.
  apply (pass_without_signal_is_silent quiet_env sample_world).
  reflexivity.
Defined.

(* ================================================================== *)
(** * The live-prices endpoint among other tasks *)

Lemma fetch_tickers_among_returns fetch others symbols :
  forall k tickers w,
    exists found w',
      fetch_tickers_among fetch others k symbols tickers w = (Returned found, w')
      /\ (tickers <> [] -> found <> []).
Proof.
  induction symbols as [|symbol rest IH]; intros k tickers w;
    cbn [fetch_tickers_among].
  - exists tickers, w. split; [reflexivity | auto].
  - unfold bind at 1, await_fetch_ticker.
    destruct (fetch (default_type (others (2 * k) w)) symbol) as [[|f fs]|err].
    + apply IH.
    + destruct (IH (S k) (dict_set symbol (f :: fs) tickers)
                  (others (2 * k + 1) (others (2 * k) w)))
        as (found & w' & E & Hne).
      exists found, w'. split; [exact E|]. intros _. apply Hne.
      apply dict_set_not_nil.
    + apply IH.
Qed.

(** When the others leave the default type alone, the loop fetches every
    ticker from the market it found in force. *)
Lemma fetch_tickers_among_undisturbed fetch others symbols :
  (forall k w, default_type (others k w) = default_type w) ->
  forall k tickers w,
    exists w',
      fetch_tickers_among fetch others k symbols tickers w
      = (Returned (fetch_tickers (fetch (default_type w)) symbols tickers), w')
      /\ default_type w' = default_type w.
Proof.
  intros Hquiet.
  induction symbols as [|symbol rest IH]; intros k tickers w;
    cbn [fetch_tickers_among fetch_tickers].
  - exists w. split; reflexivity.
  - unfold bind at 1, await_fetch_ticker. rewrite Hquiet.
    assert (Hd : default_type (others (2 * k + 1) (others (2 * k) w))
                 = default_type w) by (now rewrite !Hquiet).
    destruct (fetch (default_type w) symbol) as [[|f fs]|err].
    + destruct (IH (S k) tickers (others (2 * k + 1) (others (2 * k) w)))
        as (w' & E & Hw').
      rewrite Hd in E. exists w'. split; [exact E | congruence].
    + destruct (IH (S k) (dict_set symbol (f :: fs) tickers)
                  (others (2 * k + 1) (others (2 * k) w))) as (w' & E & Hw').
      rewrite Hd in E. exists w'. split; [exact E | congruence].
    + destruct (IH (S k) tickers (others (2 * k + 1) (others (2 * k) w)))
        as (w' & E & Hw').
      rewrite Hd in E. exists w'. split; [exact E | congruence].
Qed.

(** The end of the handler once the tickers are there. *)
Lemma serve_tickers label tickers (w : world) :
  (modify (note_connected label) ;;
   body <- lift_outcome (price_table tickers) ;;
   ret (Ok200 body)) w
  = match price_table tickers with
    | Returned body => (Returned (Ok200 body), note_connected label w)
    | Raised err => (Raised err, note_connected label w)
    end.
Proof.
  unfold bind, modify, lift_outcome, ret.
  destruct (price_table tickers); reflexivity.
Qed.

Lemma market_after_note m w :
  m = "spot" \/ m = "future" ->
  market_to_try (bot_status (note_connected (capitalize m) w)) = m
  /\ market_to_try
       (bot_status (note_connected (capitalize m ++ " (Fallback)") w)) = m.
Proof. intros [-> | ->]; split; reflexivity. Qed.

Lemma other_market_cases m :
  m = "spot" \/ m = "future" ->
  other_market m = "spot" \/ other_market m = "future".
Proof. intros [-> | ->]; [right | left]; reflexivity. Qed.

(** X17.  The price endpoint among other tasks.  Whatever the other tasks
    do at its awaits, the handler answers, with a 200 that is not empty
    and "Connected" in the status, or with a 500 and "Price Fetch
    Failed".  If the other tasks leave the default market type alone
    during the call, then every row of a 200 answer is one of the four
    symbols with the price and change of the ticker fetched from the
    market left as default type, and the market noted in the status is
    that same market, so the next call tries it first. *)
Theorem live_prices_serves_one_market_if_undisturbed :
  forall fetch others w,
    exists r w',
      live_prices_among fetch others w = (Returned r, w')
      /\ match r with
         | Ok200 body =>
             binance_connection (bot_status w') = "Connected"
             /\ last_error (bot_status w') = "None"
             /\ body <> []
             /\ ((forall k w0, default_type (others k w0) = default_type w0) ->
                 market_to_try (bot_status w') = default_type w'
                 /\ served_from fetch (default_type w') body)
         | Error500 =>
             binance_connection (bot_status w') = "Price Fetch Failed"
         end.
Proof.
  intros fetch others w.
  unfold live_prices_among, try_except, bind at 1, get at 1.
  set (primary := market_to_try (bot_status w)).
  assert (Hp : primary = "spot" \/ primary = "future")
    by apply market_to_try_cases.
  unfold bind at 1, modify at 1.
  set (w1 := set_default_type primary w).
  unfold bind at 1.
  destruct (fetch_tickers_among_returns fetch others live_symbols 0 [] w1)
    as (found1 & w2 & E1 & _).
  rewrite E1.
  destruct found1 as [|x xs].
  - unfold bind at 1, modify at 1.
    set (w3 := set_default_type (other_market primary) w2).
    unfold bind at 1.
    destruct (fetch_tickers_among_returns fetch others live_symbols
                (List.length live_symbols) [] w3) as (found2 & w4 & E2 & _).
    rewrite E2.
    destruct found2 as [|y ys].
    + unfold raise, bind, modify, ret. eexists _, _.
      split; [reflexivity|]. reflexivity.
    + rewrite serve_tickers.
      destruct (price_table (y :: ys)) as [body|err] eqn:Hbody.
      * eexists _, _. split; [reflexivity|].
        split; [reflexivity|]. split; [reflexivity|]. split.
        -- destruct (price_table_rows _ _ Hbody) as (Hlen & _).
           intros ->. discriminate Hlen.
        -- intros Hquiet.
           destruct (fetch_tickers_among_undisturbed fetch others live_symbols
                       Hquiet (List.length live_symbols) [] w3)
             as (w4' & E2' & Hd4).
           rewrite E2 in E2'. injection E2' as Hfound <-.
           cbn [default_type note_connected set_market_type set_last_error
                set_binance_connection].
           rewrite Hd4. cbn [w3 default_type set_default_type].
           split.
           ++ apply (market_after_note (other_market primary) w4).
              now apply other_market_cases.
           ++ eapply price_table_served; [| |exact Hbody]; [discriminate|].
              apply primary_tickers_sound. symmetry. exact Hfound.
      * unfold bind, modify, ret. eexists _, _.
        split; [reflexivity|]. reflexivity.
  - rewrite serve_tickers.
    destruct (price_table (x :: xs)) as [body|err] eqn:Hbody.
    + eexists _, _. split; [reflexivity|].
      split; [reflexivity|]. split; [reflexivity|]. split.
      * destruct (price_table_rows _ _ Hbody) as (Hlen & _).
        intros ->. discriminate Hlen.
      * intros Hquiet.
        destruct (fetch_tickers_among_undisturbed fetch others live_symbols
                    Hquiet 0 [] w1) as (w2' & E1' & Hd2).
        rewrite E1 in E1'. injection E1' as Hfound <-.
        cbn [default_type note_connected set_market_type set_last_error
             set_binance_connection].
        rewrite Hd2. cbn [w1 default_type set_default_type].
        split.
        -- apply (market_after_note primary w2). exact Hp.
        -- eapply price_table_served; [| |exact Hbody]; [discriminate|].
           apply primary_tickers_sound. symmetry. exact Hfound.
    + unfold bind, modify, ret. eexists _, _.
      split; [reflexivity|]. reflexivity.
Qed.

(** Futures silent and spot answering, nobody else on the loop: the one
    row comes from spot, the market the status then names. *)
Lemma live_prices_serves_one_market_if_undisturbed_witness :
  let w' := exec (live_prices_among spot_only_exchange nobody) sample_world in
  market_to_try (bot_status w') = default_type w'
  /\ served_from spot_only_exchange (default_type w')
       [("BTC/USDT", (Some 65000%Q, Some (3 # 2)%Q))].
Proof.
  cbv zeta.
  destruct (live_prices_serves_one_market_if_undisturbed spot_only_exchange
              nobody sample_world) as (r & w' & E & H).
  assert (Hr : r = Ok200 [("BTC/USDT", (Some 65000%Q, Some (3 # 2)%Q))]
               /\ w' = exec (live_prices_among spot_only_exchange nobody)
                         sample_world).
  { unfold exec. rewrite E. vm_compute in E. injection E as <- <-.
    split; reflexivity. }
  destruct Hr as (-> & ->).
  destruct H as (_ & _ & _ & H). apply H. intros k w0. reflexivity.
Defined.

(** With nobody else on the loop the handler is the one taken as running
    alone. *)
Lemma live_prices_among_nobody fetch w :
  live_prices_among fetch nobody w = live_prices fetch w.
Proof.
  assert (Hloop : forall symbols k tickers w0,
             fetch_tickers_among fetch nobody k symbols tickers w0
             = (Returned (fetch_tickers (fetch (default_type w0)) symbols tickers),
                w0)).
  { induction symbols as [|symbol rest IH]; intros k tickers w0;
      cbn [fetch_tickers_among fetch_tickers]; [reflexivity|].
    unfold bind at 1, await_fetch_ticker, nobody at 1 2 3.
    destruct (fetch (default_type w0) symbol) as [[|f fs]|err]; apply IH. }
  rewrite live_prices_unfold. cbv zeta.
  unfold live_prices_among, try_except, bind, get, modify, ret, raise,
    lift_outcome.
  rewrite Hloop. cbn [default_type set_default_type].
  destruct (fetch_tickers (fetch (market_to_try (bot_status w))) live_symbols [])
    as [|x xs].
  - rewrite Hloop. cbn [default_type set_default_type].
    destruct (fetch_tickers
                (fetch (other_market (market_to_try (bot_status w))))
                live_symbols []) as [|y ys]; [reflexivity|].
    destruct (price_table (y :: ys)); reflexivity.
  - destruct (price_table (x :: xs)); reflexivity.
Qed.

(** A pass sets the default type back to futures while the first spot
    ticker is awaited: the answer mixes a spot price with futures prices,
    under a status that says "Spot". *)
Example live_prices_disturbed_mixes_markets :
  let w' := exec (live_prices_among two_price_exchange pass_after_first_fetch)
              sample_world_on_spot in
  result (live_prices_among two_price_exchange pass_after_first_fetch)
    sample_world_on_spot
  = Returned
      (Ok200 [("BTC/USDT", (Some 100%Q, Some 1%Q));
              ("ETH/USDT", (Some 200%Q, Some 2%Q));
              ("XRP/USDT", (Some 200%Q, Some 2%Q));
              ("BNB/USDT", (Some 200%Q, Some 2%Q))])
  /\ market_type (bot_status w') = "Spot"
  /\ default_type w' = "future".
Proof. repeat split. Qed.
